(** * AnnenBites: recommendation and intake aggregation core

    A shallow embedding of the decision logic of [helpers.py] and [app.py]
    (dietary filter, category classifier, preference scorer, diversified
    selector of the dashboard, daily macro aggregator) together with the
    properties the specification states about it.

    Modelling conventions.
    - Text is a [string] of 8-bit characters read as ASCII: [lower] maps
      'A'..'Z' to 'a'..'z' and leaves every other character alone, and the
      whitespace removed by [strip] is Python's ASCII whitespace
      (codes 9-13, 28-31 and 32).
    - A database row is a record whose nullable columns are [option]s.
    - The numeric columns are REAL.  The code is written once over an
      arithmetic signature [Number]; it is instantiated with exact rationals
      [Q], the arithmetic the specification reasons in, and with binary64
      floats, the arithmetic Python runs.
    - [set()] is a [gset string]. *)

From Stdlib Require Import QArith.
From Stdlib Require Import Strings.Ascii.
From Stdlib Require Import Floats.PrimFloat Numbers.Cyclic.Int63.Uint63.
From Stdlib Require Import Sorting.Sorted.
From stdpp Require Import base decidable list sets gmap strings sorting.

Set Warnings "-clear-no-such-hyp".

Local Open Scope string_scope.
Local Open Scope list_scope.

(** ** Text primitives (Python [str] methods used by the code) *)

Module Text.

Definition code (c : ascii) : nat := nat_of_ascii c.

Definition is_upper (c : ascii) : bool :=
  (65 <=? code c)%nat && (code c <=? 90)%nat.

Definition lower_char (c : ascii) : ascii :=
  if is_upper c then ascii_of_nat (code c + 32) else c.

(** [s.lower()] *)
Fixpoint lower (s : string) : string :=
  match s with
  | EmptyString => EmptyString
  | String c r => String (lower_char c) (lower r)
  end.

(** [c.isspace()] on ASCII *)
Definition is_space (c : ascii) : bool :=
  ((9 <=? code c)%nat && (code c <=? 13)%nat)
  || ((28 <=? code c)%nat && (code c <=? 32)%nat).

Fixpoint lstrip (s : string) : string :=
  match s with
  | EmptyString => EmptyString
  | String c r => if is_space c then lstrip r else s
  end.

Fixpoint rstrip (s : string) : string :=
  match s with
  | EmptyString => EmptyString
  | String c r =>
      match rstrip r with
      | EmptyString => if is_space c then EmptyString else String c EmptyString
      | r' => String c r'
      end
  end.

(** [s.strip()] *)
Definition strip (s : string) : string := rstrip (lstrip s).

(** [s.split(sep)] for a one-character separator: never the empty list,
    one more piece than there are separators. *)
Fixpoint split (sep : ascii) (s : string) : list string :=
  match s with
  | EmptyString => [EmptyString]
  | String c r =>
      if Ascii.eqb c sep then EmptyString :: split sep r
      else match split sep r with
           | [] => [String c EmptyString]
           | w :: ws => String c w :: ws
           end
  end.

(** [s.replace(a, b)] for one-character [a] and [b] *)
Fixpoint replace (a b : ascii) (s : string) : string :=
  match s with
  | EmptyString => EmptyString
  | String c r => String (if Ascii.eqb c a then b else c) (replace a b r)
  end.

Fixpoint starts_with (w s : string) : bool :=
  match w, s with
  | EmptyString, _ => true
  | String a w', String b s' => Ascii.eqb a b && starts_with w' s'
  | String _ _, EmptyString => false
  end.

(** [w in s] on strings: [w] occurs in [s] as a contiguous substring;
    the empty string occurs in every string. *)
Fixpoint str_in (w s : string) : bool :=
  starts_with w s
  || match s with
     | EmptyString => false
     | String _ r => str_in w r
     end.

(** Truthiness of a string: [""] is falsy. *)
Definition nonempty (s : string) : bool :=
  match s with EmptyString => false | String _ _ => true end.

Definition comma : ascii := ","%char.
Definition semicolon : ascii := ";"%char.

End Text.

(** ** Arithmetic signature

    The numbers of the program are Python [float]s read from REAL columns,
    mixed with [int] literals that Python promotes.  [lit q] is the value
    of the literal written [q] in the source. *)

Class Number (A : Type) := {
  lit : Q -> A;
  add : A -> A -> A;
  sub : A -> A -> A;
  mul : A -> A -> A;
  (** [x] is falsy: it compares equal to zero *)
  is_zero : A -> bool;
  (** [x < y] *)
  ltb : A -> A -> bool
}.

Declare Scope num_scope.
Delimit Scope num_scope with num.
Infix "+" := add : num_scope.
Infix "-" := sub : num_scope.
Infix "*" := mul : num_scope.

(** Exact rationals. *)
#[export] Instance Number_Q : Number Q := {
  lit q := q;
  add := Qplus;
  sub := Qminus;
  mul := Qmult;
  is_zero x := Qeq_bool x 0;
  ltb x y := negb (Qle_bool y x)
}.

(** Binary64.  A decimal literal denotes the double nearest to it, which is
    the correctly rounded quotient of its numerator and denominator when
    both are small integers. *)
Definition float_of_Z (z : Z) : float :=
  match z with
  | Z0 => PrimFloat.zero
  | Zpos _ => PrimFloat.of_uint63 (Uint63.of_Z z)
  | Zneg p => PrimFloat.opp (PrimFloat.of_uint63 (Uint63.of_Z (Zpos p)))
  end.

#[export] Instance Number_float : Number float := {
  lit q := PrimFloat.div (float_of_Z (Qnum q)) (float_of_Z (Zpos (Qden q)));
  add := PrimFloat.add;
  sub := PrimFloat.sub;
  mul := PrimFloat.mul;
  is_zero x := PrimFloat.eqb x PrimFloat.zero;
  ltb := PrimFloat.ltb
}.

(** ** Rows *)

(** A row of [menu_items]. *)
Record menu_item (A : Type) := MenuItem {
  mi_id : Z;
  mi_name : option string;
  mi_category : option string;
  mi_calories : option A;
  mi_protein : option A;
  mi_carbs : option A;
  mi_fat : option A;
  mi_tags : option string
}.
Arguments MenuItem {A}.
Arguments mi_id {A}.
Arguments mi_name {A}.
Arguments mi_category {A}.
Arguments mi_calories {A}.
Arguments mi_protein {A}.
Arguments mi_carbs {A}.
Arguments mi_fat {A}.
Arguments mi_tags {A}.

(** A row of [user_preferences]. *)
Record user_preferences := UserPreferences {
  dietary_restrictions : option string;
  wellness_goal : option string;
  fav_cuisines : option string;
  disliked_items : option string
}.

(** [totals] of the dashboard. *)
Record totals (A : Type) := Totals {
  calories : A;
  protein : A;
  carbs : A;
  fat : A
}.
Arguments Totals {A}.
Arguments calories {A}.
Arguments protein {A}.
Arguments carbs {A}.
Arguments fat {A}.

(** [x or ""] *)
Definition or_empty (x : option string) : string :=
  match x with
  | Some s => s
  | None => ""
  end.

(** ** helpers.py *)

(** [parse_list_field(field)] *)
Definition parse_list_field (field : option string) : list string :=
  match field with
  | None => []
  | Some s =>
      if Text.nonempty s
      then map (fun item => Text.lower (Text.strip item)) (Text.split Text.comma s)
      else []
  end.

(** [x in l] for a list of strings *)
Definition mem (x : string) (l : list string) : bool :=
  existsb (String.eqb x) l.

Section Scoring.
Context {A : Type} `{Number A}.
Local Open Scope num_scope.

(** [x or 0] on a nullable number *)
Definition or_zero (x : option A) : A :=
  match x with
  | None => lit 0
  | Some v => if is_zero v then lit 0 else v
  end.

(** Step 1 of [score_menu_item]: the three hard dietary rules. *)
Definition dietary_rules (dietary tags : list string) (score : A) : A :=
  let score :=
    if mem "vegetarian" dietary && negb (mem "vegetarian" tags)
    then score - lit 100 else score in
  let score :=
    if mem "vegan" dietary && negb (mem "vegan" tags)
    then score - lit 100 else score in
  let score :=
    if mem "gluten-free" dietary && negb (mem "gluten-free" tags)
    then score - lit 50 else score in
  score.

(** Step 2: the wellness goal. *)
Definition goal_rules (goal : string) (calories protein : A) (score : A) : A :=
  if String.eqb goal "gain muscle" then
    let score := score + protein * lit 0.6 in
    score - calories * lit 0.05
  else if String.eqb goal "lose weight" then
    let score := score - calories * lit 0.1 in
    score + protein * lit 0.2
  else if String.eqb goal "maintain" then
    score + protein * lit 0.3
  else score.

(** Step 3: [for fav in fav_cuisines: if fav and fav in name: score += 5] *)
Fixpoint favorite_rules (fav_cuisines : list string) (name : string) (score : A) : A :=
  match fav_cuisines with
  | [] => score
  | fav :: rest =>
      favorite_rules rest name
        (if Text.nonempty fav && Text.str_in fav name then score + lit 5 else score)
  end.

(** Step 4: [for bad in dislikes: if bad and bad in name: score -= 20] *)
Fixpoint dislike_rules (dislikes : list string) (name : string) (score : A) : A :=
  match dislikes with
  | [] => score
  | bad :: rest =>
      dislike_rules rest name
        (if Text.nonempty bad && Text.str_in bad name then score - lit 20 else score)
  end.

(** [score_menu_item(item, prefs)] *)
Definition score_menu_item (item : menu_item A) (prefs : option user_preferences) : A :=
  match prefs with
  | None =>
      let calories := or_zero (mi_calories item) in
      let protein := or_zero (mi_protein item) in
      protein * lit 0.3 - calories * lit 0.05
  | Some prefs =>
      let score := lit 0 in
      let dietary := parse_list_field (dietary_restrictions prefs) in
      let fav_cuisines := parse_list_field (fav_cuisines prefs) in
      let dislikes := parse_list_field (disliked_items prefs) in
      let goal := Text.lower (or_empty (wellness_goal prefs)) in
      let tags := parse_list_field (mi_tags item) in
      let name := Text.lower (or_empty (mi_name item)) in
      let calories := or_zero (mi_calories item) in
      let protein := or_zero (mi_protein item) in
      let score := dietary_rules dietary tags score in
      let score := goal_rules goal calories protein score in
      let score := favorite_rules fav_cuisines name score in
      let score := dislike_rules dislikes name score in
      score
  end.

End Scoring.

(** ** app.py: keyword tables *)

(** An insertion-ordered [dict]: iteration follows the declaration order. *)
Definition CATEGORY_KEYWORDS : list (string * list string) :=
  [ ("waffle", ["waffle"]);
    ("pancake", ["pancake"]);
    ("bagel", ["bagel"]);
    ("bread", ["toast"; "bread"]);
    ("eggs", ["egg"; "omelet"; "omelette"]);
    ("yogurt", ["yogurt"]);
    ("oatmeal", ["oatmeal"; "oats"]);
    ("salad", ["salad"]);
    ("soup", ["soup"]);
    ("sandwich", ["sandwich"; "wrap"]);
    ("pizza", ["pizza"]);
    ("burger", ["burger"]) ].

Definition MEAT_WORDS : list string :=
  [ "chicken"; "beef"; "pork"; "bacon"; "ham"; "turkey"; "sausage";
    "pepperoni"; "meatball"; "meatballs"; "steak" ].

Definition SEAFOOD_WORDS : list string :=
  [ "fish"; "salmon"; "tuna"; "shrimp"; "crab"; "lobster"; "cod"; "tilapia" ].

(** The literal list of the vegan branch. *)
Definition DAIRY_EGG_WORDS : list string :=
  [ "cheese"; "egg"; "eggs"; "milk"; "yogurt"; "butter"; "cream" ].

(** [any(w in text for w in words)] *)
Definition any_word_in (words : list string) (text : string) : bool :=
  existsb (fun w => Text.str_in w text) words.
Arguments any_word_in : simpl never.

(** ** app.py: category classifier *)

Fixpoint first_category (table : list (string * list string)) (lower : string) : string :=
  match table with
  | [] => "other"
  | (cat, keywords) :: rest =>
      if any_word_in keywords lower then cat else first_category rest lower
  end.

(** [infer_category(name)] *)
Definition infer_category (name : option string) : string :=
  first_category CATEGORY_KEYWORDS (Text.lower (or_empty name)).

(** ** app.py: dietary helpers *)

(** The loop of [_load_dietary_flags] over the pieces of the field. *)
Fixpoint add_flags (parts : list string) (flags : gset string) : gset string :=
  match parts with
  | [] => flags
  | part :: rest =>
      let part := Text.strip part in
      add_flags rest (if Text.nonempty part then {[ part ]} ∪ flags else flags)
  end.

(** The pieces [raw.lower().replace(";", ",").split(",")]. *)
Definition flag_parts (raw : string) : list string :=
  Text.split Text.comma (Text.replace Text.semicolon Text.comma (Text.lower raw)).

(** [_load_dietary_flags(prefs_row)] *)
Definition _load_dietary_flags (prefs_row : option user_preferences) : gset string :=
  match prefs_row with
  | None => ∅
  | Some row =>
      let raw := or_empty (dietary_restrictions row) in
      add_flags (flag_parts raw) ∅
  end.

(** The text [f"{name} {tags}"] scanned by the filter. *)
Definition blob {A} (item : menu_item A) : string :=
  let name := Text.lower (or_empty (mi_name item)) in
  let tags := Text.lower (or_empty (mi_tags item)) in
  String.append name (String.append " " tags).

(** [_violates_dietary_restrictions(item, dietary_flags)] *)
Definition _violates_dietary_restrictions {A} (item : menu_item A)
    (dietary_flags : gset string) : bool :=
  let text := blob item in
  if bool_decide ("vegetarian" ∈ dietary_flags)
     && any_word_in (MEAT_WORDS ++ SEAFOOD_WORDS) text
  then true
  else if bool_decide ("vegan" ∈ dietary_flags) then
    if any_word_in (MEAT_WORDS ++ SEAFOOD_WORDS) text then true
    else if any_word_in DAIRY_EGG_WORDS text then true
    else false
  else false.

(** ** app.py: the dashboard *)

Section Dashboard.
Context {A : Type} `{Number A}.
Local Open Scope num_scope.

(** The first loop: [items] and [scored] are filled side by side, so
    [items] is the list of first components of [scored]. *)
Fixpoint filter_and_score (raw_items : list (menu_item A))
    (prefs : option user_preferences) (dietary_flags : gset string)
    : list (menu_item A * A) :=
  match raw_items with
  | [] => []
  | item :: rest =>
      if _violates_dietary_restrictions item dietary_flags
      then filter_and_score rest prefs dietary_flags
      else (item, score_menu_item item prefs)
             :: filter_and_score rest prefs dietary_flags
  end.

(** [scored.sort(key=lambda t: t[1], reverse=True)].  [list.sort] is
    stable, also with [reverse=True]: the result is the stable
    arrangement by decreasing key, computed here by insertion.  An
    element moves behind another one only when its key is strictly
    smaller. *)
Fixpoint insert_desc (t : menu_item A * A) (l : list (menu_item A * A))
    : list (menu_item A * A) :=
  match l with
  | [] => [t]
  | u :: rest =>
      if ltb (snd t) (snd u) then u :: insert_desc t rest else t :: u :: rest
  end.

Fixpoint sort_desc (scored : list (menu_item A * A)) : list (menu_item A * A) :=
  match scored with
  | [] => []
  | t :: rest => insert_desc t (sort_desc rest)
  end.

(** The second loop: up to three items with distinct categories. *)
Fixpoint pick (scored : list (menu_item A * A))
    (recommendations : list (menu_item A)) (used_cats : gset string)
    : list (menu_item A) :=
  match scored with
  | [] => recommendations
  | (item, sc) :: rest =>
      let cat := infer_category (mi_name item) in
      if bool_decide (cat ∈ used_cats) then pick rest recommendations used_cats
      else
        let recommendations := recommendations ++ [item] in
        let used_cats := {[ cat ]} ∪ used_cats in
        if (length recommendations =? 3)%nat then recommendations
        else pick rest recommendations used_cats
  end.

(** The items shown on the page. *)
Definition displayed_items (raw_items : list (menu_item A))
    (prefs : option user_preferences) (dietary_flags : gset string)
    : list (menu_item A) :=
  map fst (filter_and_score raw_items prefs dietary_flags).

(** The recommendation list for given flags. *)
Definition recommend (raw_items : list (menu_item A))
    (prefs : option user_preferences) (dietary_flags : gset string)
    : list (menu_item A) :=
  pick (sort_desc (filter_and_score raw_items prefs dietary_flags)) [] ∅.

(** What [dashboard] computes: the flags come from the preferences row. *)
Definition dashboard_recommendations (raw_items : list (menu_item A))
    (prefs : option user_preferences) : list (menu_item A) :=
  recommend raw_items prefs (_load_dietary_flags prefs).

(** The totals loop. *)
Fixpoint add_totals (totals_rows : list (menu_item A)) (t : totals A) : totals A :=
  match totals_rows with
  | [] => t
  | r :: rest =>
      add_totals rest
        {| calories := calories t + or_zero (mi_calories r);
           protein := protein t + or_zero (mi_protein r);
           carbs := carbs t + or_zero (mi_carbs r);
           fat := fat t + or_zero (mi_fat r) |}
  end.

Definition aggregate (totals_rows : list (menu_item A)) : totals A :=
  add_totals totals_rows
    {| calories := lit 0; protein := lit 0; carbs := lit 0; fat := lit 0 |}.

End Dashboard.

(** ** Vocabulary of the specification

    The definitions below are not code of the program: they name the
    notions in which the properties are stated. *)

(** Every character of [s] satisfies [P]. *)
Fixpoint str_forall (P : ascii -> bool) (s : string) : bool :=
  match s with
  | EmptyString => true
  | String c r => P c && str_forall P r
  end.

(** [s] does not begin with whitespace. *)
Definition starts_clean (s : string) : bool :=
  match s with
  | EmptyString => true
  | String c _ => negb (Text.is_space c)
  end.

(** [lower] leaves [c] alone. *)
Definition lower_fixed (c : ascii) : bool := Ascii.eqb (Text.lower_char c) c.

(** Normal form of a token: lower-case and without surrounding whitespace. *)
Definition normal_token (t : string) : Prop :=
  Text.lower t = t /\ Text.strip t = t.

(** The normalization in the words of the specification: lower-case, split
    on commas and semicolons, trim, drop the empty tokens. *)
Definition normalize_spec (field : option string) : list string :=
  List.filter Text.nonempty
    (map Text.strip
       (Text.split Text.comma
          (Text.replace Text.semicolon Text.comma (Text.lower (or_empty field))))).

(** Number of commas of a field. *)
Fixpoint count_commas (s : string) : nat :=
  match s with
  | EmptyString => 0
  | String c r => (if Ascii.eqb c Text.comma then 1 else 0) + count_commas r
  end.

(** [isAdmissible] and the admissible items of a list, in input order. *)
Definition is_admissible {A} (item : menu_item A) (dietary_flags : gset string) : bool :=
  negb (_violates_dietary_restrictions item dietary_flags).

Definition admissible {A} (items : list (menu_item A)) (dietary_flags : gset string)
    : list (menu_item A) :=
  List.filter (fun item => is_admissible item dietary_flags) items.

(** Inferred categories of a list of items, and how many distinct ones. *)
Definition categories {A} (items : list (menu_item A)) : list string :=
  map (fun item => infer_category (mi_name item)) items.

Definition distinct_categories {A} (items : list (menu_item A)) : nat :=
  length (remove_dups (categories items)).

(** Row updates used to isolate one field. *)
Definition with_tags {A} (tags : option string) (item : menu_item A) : menu_item A :=
  MenuItem (mi_id item) (mi_name item) (mi_category item) (mi_calories item)
    (mi_protein item) (mi_carbs item) (mi_fat item) tags.

Definition with_dietary (d : option string) (prefs : user_preferences) : user_preferences :=
  UserPreferences d (wellness_goal prefs) (fav_cuisines prefs) (disliked_items prefs).

Definition with_goal (g : option string) (prefs : user_preferences) : user_preferences :=
  UserPreferences (dietary_restrictions prefs) g (fav_cuisines prefs) (disliked_items prefs).

(** One tag-based dietary term: [-amount] when [flag] is requested by the
    user and missing from the item's tags. *)
Definition tag_penalty (flag : string) (amount : Q) (dietary tags : list string) : Q :=
  if mem flag dietary && negb (mem flag tags) then (- amount)%Q else 0%Q.

(** The wellness-goal term for a lower-cased goal. *)
Definition goal_adjustment (goal : string) (calories protein : Q) : Q :=
  (if String.eqb goal "gain muscle" then protein * 0.6 - calories * 0.05
   else if String.eqb goal "lose weight" then - (calories * 0.1) + protein * 0.2
   else if String.eqb goal "maintain" then protein * 0.3
   else 0)%Q.

(** A natural number as a rational. *)
Definition Q_of_nat (n : nat) : Q := inject_Z (Z.of_nat n).

(** Number of tokens that are non-empty substrings of the name. *)
Definition matches (tokens : list string) (name : string) : nat :=
  length (List.filter (fun t => Text.nonempty t && Text.str_in t name) tokens).

(** Field-wise equality and sum of totals over the rationals. *)
Definition totals_eq (s t : totals Q) : Prop :=
  (calories s == calories t)%Q /\ (protein s == protein t)%Q /\
  (carbs s == carbs t)%Q /\ (fat s == fat t)%Q.

Definition totals_sum (s t : totals Q) : totals Q :=
  {| calories := (calories s + calories t)%Q;
     protein := (protein s + protein t)%Q;
     carbs := (carbs s + carbs t)%Q;
     fat := (fat s + fat t)%Q |}.

(** Sum of one nullable column, an absent value counting as 0. *)
Fixpoint field_sum (f : menu_item Q -> option Q) (rows : list (menu_item Q)) : Q :=
  match rows with
  | [] => 0%Q
  | r :: rest => (default 0%Q (f r) + field_sum f rest)%Q
  end.

(** The score class of [q] in a scored list, in list order. *)
Definition with_score (q : Q) (scored : list (menu_item Q * Q)) : list (menu_item Q * Q) :=
  List.filter (fun t => Qeq_bool (snd t) q) scored.

(** Decreasing scores along a list. *)
Definition descending (scored : list (menu_item Q * Q)) : Prop :=
  StronglySorted (fun t u => (snd u <= snd t)%Q) scored.

(** The first item of every category not yet used, in list order: what a
    walk over the candidates meets before any cut-off. *)
Fixpoint first_of_each_category {A} (items : list (menu_item A)) (used : gset string)
    : list (menu_item A) :=
  match items with
  | [] => []
  | item :: rest =>
      let cat := infer_category (mi_name item) in
      if bool_decide (cat ∈ used) then first_of_each_category rest used
      else item :: first_of_each_category rest ({[ cat ]} ∪ used)
  end.

(** No keyword list of the table matches the text. *)
Definition no_keyword (table : list (string * list string)) (text : string) : Prop :=
  Forall (fun entry => any_word_in (snd entry) text = false) table.

(** [a] scores at least as well as [b]. *)
Definition at_least (prefs : option user_preferences) (a b : menu_item Q) : Prop :=
  (score_menu_item b prefs <= score_menu_item a prefs)%Q.

(** The candidates in the order in which the selection loop walks them. *)
Definition ranked {A} `{Number A} (raw_items : list (menu_item A))
    (prefs : option user_preferences) (dietary_flags : gset string)
    : list (menu_item A) :=
  map fst (sort_desc (filter_and_score raw_items prefs dietary_flags)).

(** ** app.py: the preferences form *)

(** [sep.join(parts)] *)
Fixpoint join (sep : string) (parts : list string) : string :=
  match parts with
  | [] => EmptyString
  | part :: rest =>
      match rest with
      | [] => part
      | _ :: _ => String.append part (String.append sep (join sep rest))
      end
  end.

(** POST: [dietary_str = ", ".join(dietary)] for the checked boxes, stored
    with the three text fields of the form. *)
Definition dietary_str (dietary : list string) : string := join ", " dietary.

Definition posted_preferences (dietary : list string)
    (goal favs dislikes : option string) : user_preferences :=
  {| dietary_restrictions := Some (dietary_str dietary);
     wellness_goal := goal;
     fav_cuisines := favs;
     disliked_items := dislikes |}.

(** GET: the list [dietary] handed to the template,
    [prefs["dietary_restrictions"].lower().split(",")] or [[]]. *)
Definition preferences_dietary (prefs : option user_preferences) : list string :=
  match prefs with
  | None => []
  | Some row =>
      match dietary_restrictions row with
      | None => []
      | Some d =>
          if Text.nonempty d then Text.split Text.comma (Text.lower d) else []
      end
  end.

(** ** scrape_huds.py *)

Definition BASE_HOST : string := "https://www.foodpro.huds.harvard.edu".

Definition is_lower (c : ascii) : bool :=
  (97 <=? Text.code c)%nat && (Text.code c <=? 122)%nat.

Definition upper_char (c : ascii) : ascii :=
  if is_lower c then ascii_of_nat (Text.code c - 32) else c.

Definition is_cased (c : ascii) : bool := Text.is_upper c || is_lower c.

(** [s.title()] on ASCII: a letter that follows a letter is lower-cased,
    any other letter is upper-cased. *)
Fixpoint title_from (previous_is_cased : bool) (s : string) : string :=
  match s with
  | EmptyString => EmptyString
  | String c r =>
      String (if previous_is_cased then Text.lower_char c else upper_char c)
        (title_from (is_cased c) r)
  end.

Definition title (s : string) : string := title_from false s.

(** The full URL of an item's detail page. *)
Definition detail_url (href : string) : string :=
  if Text.starts_with "http" href then href
  else if Text.starts_with "/" href then String.append BASE_HOST href
  else String.append BASE_HOST (String.append "/foodpro/" href).

(** [parse_showreport(meal_html)], from the links of the page on: a link is
    the pair of [a["href"]] and [a.get_text(strip=True)]. *)
Fixpoint parse_showreport (links : list (string * string)) : list (string * string) :=
  match links with
  | [] => []
  | (href, text) :: rest =>
      if negb (Text.nonempty text) then parse_showreport rest
      else if negb (Text.str_in "menudetail.aspx" (Text.lower href))
      then parse_showreport rest
      else (title text, detail_url href) :: parse_showreport rest
  end.

(** The row [insert_items] stores for a scraped item: no category, empty
    tags, the nutrition values found on its detail page. *)
Definition scraped_row {A} (id : Z) (name : string)
    (calories protein carbs fat : option A) : menu_item A :=
  MenuItem id (Some name) None calories protein carbs fat (Some EmptyString).

Definition is_digit (c : ascii) : bool :=
  (48 <=? Text.code c)%nat && (Text.code c <=? 57)%nat.

(** The longest run of digits at the start of [s], and what follows it. *)
Fixpoint span_digits (s : string) : string * string :=
  match s with
  | EmptyString => (EmptyString, EmptyString)
  | String c r =>
      if is_digit c
      then let '(ds, rest) := span_digits r in (String c ds, rest)
      else (EmptyString, s)
  end.

(** The match of [[0-9]+(?:\.[0-9]+)?] at a position that holds a digit:
    the run of digits, and a dot with the digits behind it when there are
    any. *)
Definition match_number (s : string) : string * string :=
  let '(whole, rest) := span_digits s in
  match rest with
  | String c r =>
      if Ascii.eqb c "."%char
      then let '(frac, _) := span_digits r in
           if Text.nonempty frac then (whole, frac) else (whole, EmptyString)
      else (whole, EmptyString)
  | EmptyString => (whole, EmptyString)
  end.

(** [re.search(r"([0-9]+(?:\.[0-9]+)?)", row_text)]: the leftmost match,
    as its integer and fraction digits. *)
Fixpoint search_number (row_text : string) : option (string * string) :=
  match row_text with
  | EmptyString => None
  | String c r =>
      if is_digit c then Some (match_number row_text) else search_number r
  end.

(** The number written by a string of digits. *)
Definition digit_value (c : ascii) : Z := Z.of_nat (Text.code c - 48).

Fixpoint digits_value (acc : Z) (ds : string) : Z :=
  match ds with
  | EmptyString => acc
  | String c r => digits_value (10 * acc + digit_value c) r
  end.

(** The decimal number that [float(m.group(1))] reads (and rounds to the
    nearest double). *)
Definition decimal_value (whole frac : string) : Q :=
  (inject_Z (digits_value 0 whole)
   + inject_Z (digits_value 0 frac) / inject_Z (10 ^ Z.of_nat (String.length frac)))%Q.

(** [get_numeric], from [row_text] on. *)
Definition row_number (row_text : string) : option Q :=
  match search_number row_text with
  | None => None
  | Some (whole, frac) => Some (decimal_value whole frac)
  end.

(** ** app.py: the stored tables and the routes that write them

    A table is the list of its rows in rowid order together with the
    largest id it ever held (AUTOINCREMENT).  The columns kept are those
    the routes below read or write; [created_at] is left out.  A form field
    that names a row is taken as the integer it denotes, [None] when the
    field is missing or empty.  A statement that breaks a foreign key is
    refused when the connection enforces foreign keys; the request then
    ends in an error and nothing is written: the outcome [None]. *)

Record table (R : Type) := Table { rows : list R; seq : Z }.
Arguments Table {R}.
Arguments rows {R}.
Arguments seq {R}.

Definition max_id (ids : list Z) : Z := fold_right Z.max 0%Z ids.

(** [INSERT]: the new row gets the next id. *)
Definition sql_insert {R} (id_of : R -> Z) (make : Z -> R) (t : table R) : table R :=
  let id := (1 + Z.max (seq t) (max_id (map id_of (rows t))))%Z in
  {| rows := rows t ++ [make id]; seq := id |}.

(** [UPDATE ... SET ... WHERE] *)
Definition sql_update {R} (where_ : R -> bool) (set : R -> R) (t : table R) : table R :=
  {| rows := map (fun r => if where_ r then set r else r) (rows t); seq := seq t |}.

(** [DELETE FROM ... WHERE] *)
Definition sql_delete {R} (where_ : R -> bool) (t : table R) : table R :=
  {| rows := List.filter (fun r => negb (where_ r)) (rows t); seq := seq t |}.

(** [SELECT ... WHERE] *)
Definition sql_select {R} (where_ : R -> bool) (t : table R) : list R :=
  List.filter where_ (rows t).

Record preferences_row := PreferencesRow {
  up_id : Z;
  up_user_id : Z;
  up_prefs : user_preferences;
  up_height_cm : option string;
  up_weight_kg : option string
}.

Record user_meals_row := UserMeal {
  um_id : Z;
  um_user_id : Z;
  um_date : string;
  um_meal : string;
  um_menu_item_id : Z
}.

Record item_feedback_row := ItemFeedback {
  if_id : Z;
  if_user_id : Z;
  if_menu_item_id : Z;
  if_rating : Z
}.

Record feedback_row := Feedback {
  fb_id : Z;
  fb_user_id : Z;
  fb_text : string;
  fb_likes : Z
}.

Record feedback_likes_row := FeedbackLike {
  fl_id : Z;
  fl_user_id : Z;
  fl_feedback_id : Z
}.

Record database (A : Type) := Database {
  t_users : list Z;
  t_menu_items : list (menu_item A);
  t_user_preferences : table preferences_row;
  t_user_meals : table user_meals_row;
  t_item_feedback : table item_feedback_row;
  t_feedback : table feedback_row;
  t_feedback_likes : table feedback_likes_row
}.
Arguments Database {A}.
Arguments t_users {A}.
Arguments t_menu_items {A}.
Arguments t_user_preferences {A}.
Arguments t_user_meals {A}.
Arguments t_item_feedback {A}.
Arguments t_feedback {A}.
Arguments t_feedback_likes {A}.

Definition set_user_preferences {A} (t : table preferences_row) (db : database A) :=
  Database (t_users db) (t_menu_items db) t (t_user_meals db)
    (t_item_feedback db) (t_feedback db) (t_feedback_likes db).

Definition set_user_meals {A} (t : table user_meals_row) (db : database A) :=
  Database (t_users db) (t_menu_items db) (t_user_preferences db) t
    (t_item_feedback db) (t_feedback db) (t_feedback_likes db).

Definition set_item_feedback {A} (t : table item_feedback_row) (db : database A) :=
  Database (t_users db) (t_menu_items db) (t_user_preferences db) (t_user_meals db)
    t (t_feedback db) (t_feedback_likes db).

Definition set_feedback {A} (t : table feedback_row) (db : database A) :=
  Database (t_users db) (t_menu_items db) (t_user_preferences db) (t_user_meals db)
    (t_item_feedback db) t (t_feedback_likes db).

Definition set_feedback_likes {A} (t : table feedback_likes_row) (db : database A) :=
  Database (t_users db) (t_menu_items db) (t_user_preferences db) (t_user_meals db)
    (t_item_feedback db) (t_feedback db) t.

(** [x or default] on a form field: a missing or empty field is falsy. *)
Definition or_default (x : option string) (default : string) : string :=
  match x with
  | Some s => if Text.nonempty s then s else default
  | None => default
  end.

(** [x or None] *)
Definition or_none (x : option string) : option string :=
  match x with
  | Some s => if Text.nonempty s then Some s else None
  | None => None
  end.

Section Routes.
Context {A : Type} `{Number A}.

(** Whether the connection enforces foreign keys. *)
Variable enforce_foreign_keys : bool.

(** Python's [int(s)]; [None] stands for [ValueError]. *)
Variable int : string -> option Z.

(** The key [k] may be stored as a reference to one of [ids]. *)
Definition reference_ok (ids : list Z) (k : Z) : bool :=
  negb enforce_foreign_keys || bool_decide (k ∈ ids).

(** *** preferences *)

(** POST of [/preferences]: update the user's rows or insert one. *)
Definition preferences_post (db : database A) (user_id : Z)
    (dietary : list string) (goal favs dislikes height_cm weight_kg : option string)
    : option (database A) :=
  let height_cm := or_none height_cm in
  let weight_kg := or_none weight_kg in
  let prefs := posted_preferences dietary goal favs dislikes in
  let mine r := (up_user_id r =? user_id)%Z in
  match sql_select mine (t_user_preferences db) with
  | _ :: _ =>
      Some (set_user_preferences
              (sql_update mine
                 (fun r => PreferencesRow (up_id r) (up_user_id r) prefs height_cm weight_kg)
                 (t_user_preferences db))
              db)
  | [] =>
      if reference_ok (t_users db) user_id
      then Some (set_user_preferences
                   (sql_insert up_id
                      (fun id => PreferencesRow id user_id prefs height_cm weight_kg)
                      (t_user_preferences db))
                   db)
      else None
  end.

(** [prefs = prefs_rows[0] if prefs_rows else None], as the dashboard and
    the preferences page load it. *)
Definition load_preferences (db : database A) (user_id : Z) : option user_preferences :=
  match sql_select (fun r => (up_user_id r =? user_id)%Z) (t_user_preferences db) with
  | row :: _ => Some (up_prefs row)
  | [] => None
  end.

(** *** meals *)

Definition add_meal (db : database A) (user_id : Z) (menu_item_id : option Z)
    (meal date : option string) (today : string) : option (database A) :=
  let meal := Text.lower (or_default meal "breakfast") in
  let date_str := or_default date today in
  match menu_item_id with
  | Some item =>
      if reference_ok (t_users db) user_id
         && reference_ok (map mi_id (t_menu_items db)) item
      then Some (set_user_meals
                   (sql_insert um_id
                      (fun id => UserMeal id user_id date_str meal item)
                      (t_user_meals db))
                   db)
      else None
  | None => Some db
  end.

Definition remove_meal (db : database A) (user_id : Z) (user_meal_id : option Z)
    : database A :=
  match user_meal_id with
  | Some id =>
      set_user_meals
        (sql_delete (fun r => (um_id r =? id)%Z && (um_user_id r =? user_id)%Z)
           (t_user_meals db))
        db
  | None => db
  end.

Definition reset_intake (db : database A) (user_id : Z) (date : option string)
    (today : string) : database A :=
  let date_str := or_default date today in
  set_user_meals
    (sql_delete (fun r => (um_user_id r =? user_id)%Z && String.eqb (um_date r) date_str)
       (t_user_meals db))
    db.

(** The rows of the dashboard's totals query: the menu items joined to the
    user's logged meals of the date. *)
Definition totals_rows (db : database A) (user_id : Z) (current_date : string)
    : list (menu_item A) :=
  flat_map
    (fun um => List.filter (fun m => (mi_id m =? um_menu_item_id um)%Z) (t_menu_items db))
    (sql_select
       (fun um => (um_user_id um =? user_id)%Z && String.eqb (um_date um) current_date)
       (t_user_meals db)).

Definition dashboard_totals (db : database A) (user_id : Z) (current_date : string)
    : totals A :=
  aggregate (totals_rows db user_id current_date).

(** *** item ratings *)

Definition item_feedback (db : database A) (user_id : Z) (menu_item_id : option Z)
    (rating_str : option string) : option (database A) :=
  match menu_item_id, or_none rating_str with
  | Some item, Some rating_str =>
      match int rating_str with
      | None => Some db
      | Some rating =>
          if (rating <? 1)%Z || (rating >? 5)%Z then Some db
          else
            match sql_select
                    (fun r => (if_user_id r =? user_id)%Z && (if_menu_item_id r =? item)%Z)
                    (t_item_feedback db) with
            | existing :: _ =>
                Some (set_item_feedback
                        (sql_update (fun r => (if_id r =? if_id existing)%Z)
                           (fun r => ItemFeedback (if_id r) (if_user_id r)
                                       (if_menu_item_id r) rating)
                           (t_item_feedback db))
                        db)
            | [] =>
                if reference_ok (t_users db) user_id
                   && reference_ok (map mi_id (t_menu_items db)) item
                then Some (set_item_feedback
                             (sql_insert if_id
                                (fun id => ItemFeedback id user_id item rating)
                                (t_item_feedback db))
                             db)
                else None
            end
      end
  | _, _ => Some db
  end.

(** [ratings = {row["menu_item_id"]: row["rating"] for row in ratings_rows}] *)
Definition dashboard_ratings (db : database A) (user_id : Z) : gmap Z Z :=
  fold_left (fun ratings row => <[ if_menu_item_id row := if_rating row ]> ratings)
    (sql_select (fun r => (if_user_id r =? user_id)%Z) (t_item_feedback db)) ∅.

(** *** feedback wall *)

(** POST of [/feedback] *)
Definition feedback_post (db : database A) (user_id : Z) (text : option string)
    : option (database A) :=
  let text := Text.strip (default EmptyString text) in
  if Text.nonempty text && (String.length text <=? 800)%nat then
    if reference_ok (t_users db) user_id
    then Some (set_feedback
                 (sql_insert fb_id (fun id => Feedback id user_id text 0) (t_feedback db))
                 db)
    else None
  else Some db.

Definition feedback_like (db : database A) (user_id : Z) (feedback_id : option Z)
    : option (database A) :=
  match feedback_id with
  | None => Some db
  | Some feedback_id =>
      let mine r := (fl_user_id r =? user_id)%Z && (fl_feedback_id r =? feedback_id)%Z in
      let this f := (fb_id f =? feedback_id)%Z in
      match sql_select mine (t_feedback_likes db) with
      | _ :: _ =>
          let db := set_feedback_likes (sql_delete mine (t_feedback_likes db)) db in
          Some (set_feedback
                  (sql_update this
                     (fun f => Feedback (fb_id f) (fb_user_id f) (fb_text f) (fb_likes f - 1))
                     (t_feedback db))
                  db)
      | [] =>
          if reference_ok (t_users db) user_id
             && reference_ok (map fb_id (rows (t_feedback db))) feedback_id
          then
            let db := set_feedback_likes
                        (sql_insert fl_id (fun id => FeedbackLike id user_id feedback_id)
                           (t_feedback_likes db))
                        db in
            Some (set_feedback
                    (sql_update this
                       (fun f => Feedback (fb_id f) (fb_user_id f) (fb_text f) (fb_likes f + 1))
                       (t_feedback db))
                    db)
          else None
      end
  end.

(** [liked_map = {row["feedback_id"] for row in liked_rows}] *)
Definition liked_map (db : database A) (user_id : Z) : gset Z :=
  list_to_set
    (map fl_feedback_id
       (sql_select (fun r => (fl_user_id r =? user_id)%Z) (t_feedback_likes db))).

End Routes.

(** Who likes what, and how many like rows a feedback entry has. *)
Definition like_pairs {A} (db : database A) : list (Z * Z) :=
  map (fun r => (fl_user_id r, fl_feedback_id r)) (rows (t_feedback_likes db)).

Definition like_count {A} (db : database A) (feedback_id : Z) : Z :=
  Z.of_nat (length (List.filter (fun r => (fl_feedback_id r =? feedback_id)%Z)
                      (rows (t_feedback_likes db)))).

(** Every like counter is the number of like rows of its entry, and nobody
    likes an entry twice. *)
Definition likes_consistent {A} (db : database A) : Prop :=
  NoDup (like_pairs db)
  /\ Forall (fun f => fb_likes f = like_count db (fb_id f)) (rows (t_feedback db)).

(** Ratings are between 1 and 5, one per user and item, ids are distinct. *)
Definition ratings_consistent {A} (db : database A) : Prop :=
  Forall (fun r => (1 <= if_rating r <= 5)%Z) (rows (t_item_feedback db))
  /\ NoDup (map (fun r => (if_user_id r, if_menu_item_id r)) (rows (t_item_feedback db)))
  /\ NoDup (map if_id (rows (t_item_feedback db))).

(** A rating row with another rating. *)
Definition set_rating (rating : Z) (r : item_feedback_row) : item_feedback_row :=
  ItemFeedback (if_id r) (if_user_id r) (if_menu_item_id r) rating.

(** The two ways a valid request writes the table. *)
Inductive rating_written {A} (db : database A) (user item rating : Z)
    : database A -> Prop :=
  | rating_updated existing :
      existing ∈ rows (t_item_feedback db) ->
      if_user_id existing = user -> if_menu_item_id existing = item ->
      rating_written db user item rating
        (set_item_feedback
           (sql_update (fun r => (if_id r =? if_id existing)%Z) (set_rating rating)
              (t_item_feedback db)) db)
  | rating_inserted :
      (forall r, r ∈ rows (t_item_feedback db) ->
         ~ (if_user_id r = user /\ if_menu_item_id r = item)) ->
      rating_written db user item rating
        (set_item_feedback
           (sql_insert if_id (fun id => ItemFeedback id user item rating)
              (t_item_feedback db)) db).

(** *** accounts

    The users table with its names and password hashes, the session as its
    [user_id] entry, and the two kinds of answers of a route.  The routes
    are taken at their POST branch. *)

Record user_row := User {
  u_id : Z;
  u_username : string;
  u_hash : string
}.

Inductive response :=
  | render_template (template : string) (errorMessage : option string)
  | redirect (location : string).

Section Accounts.

(** [generate_password_hash(password)], with the salt it draws, and
    [check_password_hash(pwhash, password)]. *)
Variable generate_password_hash : string -> string -> string.
Variable check_password_hash : string -> string -> bool.

Definition register (users : table user_row) (session : option Z)
    (username password confirmation : option string) (salt : string)
    : response * table user_row * option Z :=
  match or_none username, or_none password, or_none confirmation with
  | Some username, Some password, Some confirmation =>
      if negb (String.eqb password confirmation) then
        (render_template "register.html" (Some "Passwords must match"), users, session)
      else
        match sql_select (fun r => String.eqb (u_username r) username) users with
        | _ :: _ =>
            (render_template "register.html" (Some "Username already taken"),
             users, session)
        | [] =>
            let hash_pw := generate_password_hash salt password in
            let users := sql_insert u_id (fun id => User id username hash_pw) users in
            let new_id := seq users in
            (redirect "/preferences", users, Some new_id)
        end
  | _, _, _ =>
      (render_template "register.html"
         (Some "Must provide username, password, and confirmation"),
       users, session)
  end.

(** [login] begins with [session.clear()]: whatever it answers, the only
    user the session can hold afterwards is the one it writes. *)
Definition login (users : table user_row) (username password : option string)
    : response * option Z :=
  match or_none username, or_none password with
  | Some username, Some password =>
      match sql_select (fun r => String.eqb (u_username r) username) users with
      | [row] =>
          if check_password_hash (u_hash row) password
          then (redirect "/dashboard", Some (u_id row))
          else (render_template "login.html" (Some "Invalid Username or Password"), None)
      | _ => (render_template "login.html" (Some "Invalid Username or Password"), None)
      end
  | _, _ =>
      (render_template "login.html" (Some "Must provide username and password"), None)
  end.

End Accounts.

(** User names and ids are distinct, no name is empty. *)
Definition users_consistent (users : table user_row) : Prop :=
  NoDup (map u_username (rows users)) /\ NoDup (map u_id (rows users))
  /\ Forall (fun r => u_username r <> EmptyString) (rows users).

(** The like rows of a user for an entry; an entry's counter moved. *)
Definition like_of (user feedback_id : Z) (r : feedback_likes_row) : bool :=
  (fl_user_id r =? user)%Z && (fl_feedback_id r =? feedback_id)%Z.

Definition add_likes (feedback_id delta : Z) (f : feedback_row) : feedback_row :=
  if (fb_id f =? feedback_id)%Z
  then Feedback (fb_id f) (fb_user_id f) (fb_text f) (fb_likes f + delta)
  else f.

(** ** More vocabulary *)

(** A value without a comma, without a semicolon. *)
Definition comma_free (s : string) : Prop := Text.str_in "," s = false.
Definition semicolon_free (s : string) : Prop := Text.str_in ";" s = false.

(** The text fields of a row in lower case. *)
Definition lower_item {A} (item : menu_item A) : menu_item A :=
  MenuItem (mi_id item) (option_map Text.lower (mi_name item)) (mi_category item)
    (mi_calories item) (mi_protein item) (mi_carbs item) (mi_fat item)
    (option_map Text.lower (mi_tags item)).

Definition lower_prefs (prefs : user_preferences) : user_preferences :=
  {| dietary_restrictions := option_map Text.lower (dietary_restrictions prefs);
     wellness_goal := option_map Text.lower (wellness_goal prefs);
     fav_cuisines := option_map Text.lower (fav_cuisines prefs);
     disliked_items := option_map Text.lower (disliked_items prefs) |}.

(** The four nutrition values of a row are not negative. *)
Definition nonneg_fields (r : menu_item Q) : Prop :=
  (0 <= default 0 (mi_calories r))%Q /\ (0 <= default 0 (mi_protein r))%Q
  /\ (0 <= default 0 (mi_carbs r))%Q /\ (0 <= default 0 (mi_fat r))%Q.

(** A row with another name. *)
Definition with_name {A} (name : option string) (item : menu_item A) : menu_item A :=
  MenuItem (mi_id item) name (mi_category item) (mi_calories item)
    (mi_protein item) (mi_carbs item) (mi_fat item) (mi_tags item).

(** What the dietary rules take from the score of an item without tags. *)
Definition untagged_penalty (dietary : list string) : Q :=
  ((if decide ("vegetarian" ∈ dietary) then - (100) else 0)
   + (if decide ("vegan" ∈ dietary) then - (100) else 0)
   + (if decide ("gluten-free" ∈ dietary) then - (50) else 0))%Q.

(** * Properties *)

(** ** Text *)

Section TextFacts.
Import Text.

Lemma lower_char_idem c : lower_char (lower_char c) = lower_char c.
Proof. destruct c as [[] [] [] [] [] [] [] []]; reflexivity. Qed.

Lemma is_space_lower_char c : is_space (lower_char c) = is_space c.
Proof. destruct c as [[] [] [] [] [] [] [] []]; reflexivity. Qed.

Lemma lower_char_separator c :
  lower_char (if Ascii.eqb c semicolon then comma else c)
  = if Ascii.eqb (lower_char c) semicolon then comma else lower_char c.
Proof. destruct c as [[] [] [] [] [] [] [] []]; reflexivity. Qed.

Lemma lower_char_comma c :
  Ascii.eqb (lower_char c) comma = Ascii.eqb c comma.
Proof. destruct c as [[] [] [] [] [] [] [] []]; reflexivity. Qed.

Lemma lower_idem s : lower (lower s) = lower s.
Proof. induction s as [|c r IH]; simpl; [done|]. by rewrite lower_char_idem, IH. Qed.

Lemma lower_lstrip s : lstrip (lower s) = lower (lstrip s).
Proof.
  induction s as [|c r IH]; simpl; [done|].
  rewrite is_space_lower_char. by destruct (is_space c).
Qed.

Lemma lower_rstrip s : rstrip (lower s) = lower (rstrip s).
Proof.
  induction s as [|c r IH]; simpl; [done|].
  rewrite IH, is_space_lower_char.
  destruct (rstrip r); simpl; [by destruct (is_space c)|done].
Qed.

Lemma lower_strip s : strip (lower s) = lower (strip s).
Proof. unfold strip. by rewrite lower_lstrip, lower_rstrip. Qed.

Lemma lower_replace s :
  lower (replace semicolon comma s) = replace semicolon comma (lower s).
Proof.
  induction s as [|c r IH]; simpl; [done|].
  by rewrite lower_char_separator, IH.
Qed.

Lemma replace_idem s :
  replace semicolon comma (replace semicolon comma s) = replace semicolon comma s.
Proof.
  induction s as [|c r IH]; simpl; [done|].
  rewrite IH. f_equal.
  destruct (Ascii.eqb c semicolon) eqn:E; [done|by rewrite E].
Qed.

Lemma lstrip_starts_clean s : starts_clean (lstrip s) = true.
Proof.
  induction s as [|c r IH]; simpl; [done|].
  destruct (is_space c) eqn:E; [done|]. simpl. by rewrite E.
Qed.

Lemma lstrip_clean s : starts_clean s = true -> lstrip s = s.
Proof. destruct s as [|c r]; simpl; [done|]. by destruct (is_space c). Qed.

Lemma rstrip_starts_clean s : starts_clean s = true -> starts_clean (rstrip s) = true.
Proof.
  destruct s as [|c r]; simpl; [done|]. intros E.
  destruct (rstrip r); simpl; [|done].
  destruct (is_space c) eqn:Ec; simpl in *; [done|by rewrite Ec].
Qed.

Lemma rstrip_idem s : rstrip (rstrip s) = rstrip s.
Proof.
  induction s as [|c r IH]; simpl; [done|].
  destruct (rstrip r) as [|a r'] eqn:E.
  - destruct (is_space c) eqn:Ec; simpl; [done|]. by rewrite Ec.
  - change (rstrip (String c (String a r')) = String c (String a r')).
    cbn [rstrip]. cbn [rstrip] in IH.
    by destruct (rstrip r') eqn:E'; destruct (is_space a); simplify_eq.
Qed.

Lemma strip_idem s : strip (strip s) = strip s.
Proof.
  unfold strip.
  rewrite (lstrip_clean (rstrip (lstrip s))).
  - apply rstrip_idem.
  - apply rstrip_starts_clean, lstrip_starts_clean.
Qed.

Lemma str_forall_lstrip P s : str_forall P s = true -> str_forall P (lstrip s) = true.
Proof.
  induction s as [|c r IH]; simpl; [done|].
  intros [? ?]%andb_true_iff. destruct (is_space c); simpl; [auto|].
  apply andb_true_iff. auto.
Qed.

Lemma str_forall_rstrip P s : str_forall P s = true -> str_forall P (rstrip s) = true.
Proof.
  induction s as [|c r IH]; simpl; [done|].
  intros [Hc Hr]%andb_true_iff. specialize (IH Hr).
  destruct (rstrip r); simpl in *.
  - destruct (is_space c); simpl; [done|]. by rewrite Hc.
  - by rewrite Hc.
Qed.

Lemma str_forall_strip P s : str_forall P s = true -> str_forall P (strip s) = true.
Proof. intros. by apply str_forall_rstrip, str_forall_lstrip. Qed.

Lemma str_forall_lower P s :
  (forall c, P c = true -> P (lower_char c) = true) ->
  str_forall P s = true -> str_forall P (lower s) = true.
Proof.
  intros HP. induction s as [|c r IH]; simpl; [done|].
  intros [? ?]%andb_true_iff. apply andb_true_iff. auto.
Qed.

Lemma split_not_nil sep s : split sep s <> [].
Proof.
  destruct s as [|c r]; simpl; [done|].
  destruct (Ascii.eqb c sep); [done|]. by destruct (split sep r).
Qed.

Lemma split_length s : length (split comma s) = S (count_commas s).
Proof.
  induction s as [|c r IH]; simpl; [done|].
  destruct (Ascii.eqb c comma); simpl; [by rewrite IH|].
  destruct (split comma r); simpl in *; lia.
Qed.

(** No piece of a split contains the separator. *)
Lemma split_pieces sep s :
  Forall (fun p => str_forall (fun c => negb (Ascii.eqb c sep)) p = true) (split sep s).
Proof.
  induction s as [|c r IH]; simpl; [by constructor|].
  destruct (Ascii.eqb c sep) eqn:E; [by constructor|].
  destruct (split sep r) as [|w ws]; [repeat constructor; simpl; by rewrite E|].
  inversion IH; subst. constructor; [|done]. simpl. by rewrite E.
Qed.

Lemma str_forall_not_in a s :
  str_forall (fun c => negb (Ascii.eqb c a)) s = true ->
  str_in (String a EmptyString) s = false.
Proof.
  induction s as [|c r IH]; simpl; [done|].
  intros [Hc Hr]%andb_true_iff. rewrite (IH Hr).
  rewrite Ascii.eqb_sym. apply negb_true_iff in Hc. by rewrite Hc.
Qed.

Lemma nonempty_true s : nonempty s = true <-> s <> EmptyString.
Proof. destruct s; simpl; split; done. Qed.

Lemma split_forall P sep s :
  str_forall P s = true -> Forall (fun p => str_forall P p = true) (split sep s).
Proof.
  induction s as [|c r IH]; simpl; [by constructor|].
  intros [Hc Hr]%andb_true_iff. specialize (IH Hr).
  destruct (Ascii.eqb c sep); [by constructor|].
  destruct (split sep r) as [|w ws]; [repeat constructor; simpl; by rewrite Hc|].
  inversion IH; subst. constructor; [|done]. simpl. by rewrite Hc.
Qed.

Lemma lower_fixed_spec s : str_forall lower_fixed s = true <-> lower s = s.
Proof.
  induction s as [|c r IH]; simpl; [done|].
  rewrite andb_true_iff, IH. unfold lower_fixed. rewrite Ascii.eqb_eq.
  split; [intros [-> ->]; done|]. intros E. by simplify_eq.
Qed.

Lemma lower_is_fixed s : str_forall lower_fixed (lower s) = true.
Proof. apply lower_fixed_spec, lower_idem. Qed.

Lemma str_forall_replace P a b s :
  P b = true -> str_forall P s = true -> str_forall P (replace a b s) = true.
Proof.
  intros Hb. induction s as [|c r IH]; simpl; [done|].
  intros [Hc Hr]%andb_true_iff. rewrite (IH Hr).
  by destruct (Ascii.eqb c a); rewrite ?Hb, ?Hc.
Qed.

Lemma replace_removes s :
  str_forall (fun c => negb (Ascii.eqb c semicolon)) (replace semicolon comma s) = true.
Proof.
  induction s as [|c r IH]; simpl; [done|]. rewrite IH.
  by destruct (Ascii.eqb c semicolon) eqn:E; [|rewrite E].
Qed.

End TextFacts.

(** ** Normalization of the free-text fields *)

Lemma mem_spec x l : mem x l = true <-> x ∈ l.
Proof.
  unfold mem. rewrite existsb_exists. setoid_rewrite String.eqb_eq.
  setoid_rewrite <- list_elem_of_In. naive_solver.
Qed.

Lemma elem_of_add_flags t parts flags :
  t ∈ add_flags parts flags
  <-> t ∈ flags \/ (t <> EmptyString /\ exists p, p ∈ parts /\ Text.strip p = t).
Proof.
  revert flags. induction parts as [|p parts IH]; intros flags; simpl.
  - split; [auto|]. intros [?|(_ & q & Hq & _)]; [done|]. by apply elem_of_nil in Hq.
  - rewrite IH. setoid_rewrite elem_of_cons.
    destruct (Text.nonempty (Text.strip p)) eqn:E.
    + apply nonempty_true in E. set_solver.
    + assert (Text.strip p = EmptyString) by (by destruct (Text.strip p)).
      naive_solver.
Qed.

Lemma elem_of_normalize_spec t field :
  t ∈ normalize_spec field
  <-> t <> EmptyString /\ exists p, p ∈ flag_parts (or_empty field) /\ Text.strip p = t.
Proof.
  unfold normalize_spec, flag_parts.
  rewrite list_elem_of_In, filter_In, nonempty_true, <- list_elem_of_In, list_elem_of_fmap.
  naive_solver.
Qed.

Lemma flag_parts_replace d :
  flag_parts (Text.replace Text.semicolon Text.comma d) = flag_parts d.
Proof. unfold flag_parts. by rewrite lower_replace, replace_idem. Qed.

(** Every piece of the field is lower-case and free of separators. *)
Lemma flag_parts_clean raw p :
  p ∈ flag_parts raw ->
  str_forall lower_fixed p = true
  /\ str_forall (fun c => negb (Ascii.eqb c Text.comma)) p = true
  /\ str_forall (fun c => negb (Ascii.eqb c Text.semicolon)) p = true.
Proof.
  unfold flag_parts. intros Hp.
  set (s := Text.replace Text.semicolon Text.comma (Text.lower raw)) in *.
  assert (Hl : str_forall lower_fixed s = true).
  { apply str_forall_replace; [done|apply lower_is_fixed]. }
  pose proof (replace_removes (Text.lower raw)) as Hs. fold s in Hs.
  pose proof (split_forall _ Text.comma _ Hl) as H1.
  pose proof (split_pieces Text.comma s) as H2.
  pose proof (split_forall _ Text.comma _ Hs) as H3.
  rewrite Forall_forall in H1, H2, H3. auto.
Qed.

Lemma strip_normal p :
  str_forall lower_fixed p = true -> normal_token (Text.strip p).
Proof.
  intros Hp. split; [|apply strip_idem].
  by apply lower_fixed_spec, str_forall_strip.
Qed.

Lemma load_flags_elem prefs t :
  t ∈ _load_dietary_flags prefs ->
  t <> EmptyString /\ normal_token t
  /\ Text.str_in "," t = false /\ Text.str_in ";" t = false.
Proof.
  destruct prefs as [row|]; simpl; [|set_solver].
  rewrite elem_of_add_flags. intros [?|(Hne & p & Hp & <-)]; [set_solver|].
  apply flag_parts_clean in Hp as (Hl & Hc & Hs).
  split; [done|]. split; [by apply strip_normal|].
  split; by apply str_forall_not_in, str_forall_strip.
Qed.

Lemma parse_list_field_elem field t :
  t ∈ parse_list_field field -> normal_token t /\ Text.str_in "," t = false.
Proof.
  unfold parse_list_field. destruct field as [s|]; [|by intros ?%elem_of_nil].
  destruct (Text.nonempty s); [|by intros ?%elem_of_nil].
  intros (p & -> & Hp)%list_elem_of_fmap.
  pose proof (split_pieces Text.comma s) as Hs. rewrite Forall_forall in Hs.
  specialize (Hs _ Hp). split; [split|].
  - apply lower_idem.
  - by rewrite lower_strip, strip_idem.
  - apply str_forall_not_in, str_forall_lower, str_forall_strip, Hs.
    intros c. by rewrite lower_char_comma.
Qed.

(** Empty tokens never score: the cuisine and dislike loops guard them. *)
Lemma favorite_rules_skip_empty A `{Number A} (tokens : list string) name (score : A) :
  favorite_rules (List.filter Text.nonempty tokens) name score
  = favorite_rules tokens name score.
Proof.
  revert score. induction tokens as [|t rest IH]; intros score; [done|].
  cbn [List.filter favorite_rules].
  destruct (Text.nonempty t) eqn:E; cbn [favorite_rules andb]; [rewrite E|]; apply IH.
Qed.

Lemma dislike_rules_skip_empty A `{Number A} (tokens : list string) name (score : A) :
  dislike_rules (List.filter Text.nonempty tokens) name score
  = dislike_rules tokens name score.
Proof.
  revert score. induction tokens as [|t rest IH]; intros score; [done|].
  cbn [List.filter dislike_rules].
  destruct (Text.nonempty t) eqn:E; cbn [dislike_rules andb]; [rewrite E|]; apply IH.
Qed.

(** C1, as the code has it.  The filter's flag set ([_load_dietary_flags])
    is the normalization the specification describes: lower-cased, split on
    commas and semicolons, trimmed, empty tokens dropped; so it never holds
    the empty string and a semicolon-separated field gives the flags of its
    comma-separated spelling.  The scorer's lists ([parse_list_field], used
    for dietary restrictions, favorite cuisines, disliked items and item
    tags) are empty for an empty or absent field and otherwise hold one
    lower-cased, trimmed token per comma-separated piece; the empty tokens
    they keep add nothing to the cuisine and dislike terms. *)
Theorem normalization_of_fields :
  (forall prefs, EmptyString ∉ _load_dietary_flags prefs)
  /\ (forall prefs t,
        t ∈ _load_dietary_flags (Some prefs)
        <-> t ∈ normalize_spec (dietary_restrictions prefs))
  /\ (forall prefs t,
        t ∈ _load_dietary_flags prefs ->
        normal_token t /\ Text.str_in "," t = false /\ Text.str_in ";" t = false)
  /\ (forall d prefs,
        _load_dietary_flags
          (Some (with_dietary (Some (Text.replace Text.semicolon Text.comma d)) prefs))
        = _load_dietary_flags (Some (with_dietary (Some d) prefs)))
  /\ parse_list_field None = []
  /\ parse_list_field (Some EmptyString) = []
  /\ (forall s, s <> EmptyString ->
        parse_list_field (Some s)
        = map (fun piece => Text.lower (Text.strip piece)) (Text.split Text.comma s))
  /\ (forall s, s <> EmptyString ->
        length (parse_list_field (Some s)) = S (count_commas s))
  /\ (forall field t,
        t ∈ parse_list_field field -> normal_token t /\ Text.str_in "," t = false)
  /\ (forall A `{Number A} field name (score : A),
        favorite_rules (List.filter Text.nonempty (parse_list_field field)) name score
        = favorite_rules (parse_list_field field) name score
        /\ dislike_rules (List.filter Text.nonempty (parse_list_field field)) name score
           = dislike_rules (parse_list_field field) name score).
Proof.
  split; [|split; [|split; [|split; [|split; [|split; [|split; [|split; [|split]]]]]]]].
  - intros prefs H. by apply load_flags_elem in H as [? _].
  - intros prefs t. simpl.
    rewrite elem_of_add_flags, elem_of_normalize_spec. set_solver.
  - intros prefs t H. apply load_flags_elem in H. tauto.
  - intros d prefs. simpl. by rewrite flag_parts_replace.
  - reflexivity.
  - reflexivity.
  - intros s Hs%nonempty_true. simpl. by rewrite Hs.
  - intros s Hs%nonempty_true. simpl. rewrite Hs, length_map. apply split_length.
  - apply parse_list_field_elem.
  - intros A HA field name score.
    split; [apply favorite_rules_skip_empty|apply dislike_rules_skip_empty].
Qed.

(** C1 as stated fails for the scorer's normalization: [parse_list_field]
    keeps the empty token of ["vegan,,nuts"], and it does not split
    ["vegan;nuts"], which the comma-separated spelling yields as two
    tokens. *)
Lemma parse_list_field_not_normalized :
  parse_list_field (Some "vegan,,nuts") = ["vegan"; ""; "nuts"]
  /\ EmptyString ∈ parse_list_field (Some "vegan,,nuts")
  /\ parse_list_field (Some "vegan;nuts") = ["vegan;nuts"]
  /\ parse_list_field (Some "vegan,nuts") = ["vegan"; "nuts"]
  /\ parse_list_field (Some "vegan;nuts") <> parse_list_field (Some "vegan,nuts")
  /\ parse_list_field (Some "vegan;nuts") <> normalize_spec (Some "vegan;nuts").
Proof.
  repeat split; try reflexivity; try discriminate.
  apply list_elem_of_In. simpl. auto.
Qed.

(** ** Dietary filter *)

Lemma any_word_in_spec words text :
  any_word_in words text = true
  <-> exists w, w ∈ words /\ Text.str_in w text = true.
Proof.
  unfold any_word_in. rewrite existsb_exists.
  setoid_rewrite <- list_elem_of_In. done.
Qed.

Lemma any_word_in_app ws1 ws2 text :
  any_word_in (ws1 ++ ws2) text = any_word_in ws1 text || any_word_in ws2 text.
Proof. apply existsb_app. Qed.

(** C2.  The filter rejects an item exactly when "vegetarian" is a flag and
    the blob holds a meat or seafood word, or "vegan" is a flag and the
    blob holds a meat, seafood, dairy or egg word.  Without these two flags
    every item is admissible; "Cheese Omelette" is rejected for a vegan. *)
Theorem dietary_filter_rejects_iff :
  (forall A (item : menu_item A) (dietary_flags : gset string),
      _violates_dietary_restrictions item dietary_flags = true
      <-> ("vegetarian" ∈ dietary_flags
           /\ exists w, w ∈ MEAT_WORDS ++ SEAFOOD_WORDS
                        /\ Text.str_in w (blob item) = true)
          \/ ("vegan" ∈ dietary_flags
              /\ exists w, w ∈ MEAT_WORDS ++ SEAFOOD_WORDS ++ DAIRY_EGG_WORDS
                           /\ Text.str_in w (blob item) = true))
  /\ (forall A (item : menu_item A) (dietary_flags : gset string),
        "vegetarian" ∉ dietary_flags -> "vegan" ∉ dietary_flags ->
        is_admissible item dietary_flags = true)
  /\ (forall A id category (calories protein carbs fat : option A),
        is_admissible
          (MenuItem id (Some "Cheese Omelette") category calories protein carbs fat (Some ""))
          {[ "vegan" ]} = false).
Proof.
  split; [|split].
  - intros A item flags. unfold _violates_dietary_restrictions.
    rewrite <- !any_word_in_spec, app_assoc, (any_word_in_app _ DAIRY_EGG_WORDS).
    destruct (any_word_in (MEAT_WORDS ++ SEAFOOD_WORDS) (blob item));
      destruct (any_word_in DAIRY_EGG_WORDS (blob item));
      repeat case_bool_decide; simpl; naive_solver.
  - intros A item flags Hv Hg. unfold is_admissible, _violates_dietary_restrictions.
    by rewrite !bool_decide_eq_false_2.
  - intros. vm_compute. reflexivity.
Qed.

(** C2 at concrete rows: gluten-free alone excludes nothing, not even a
    turkey sandwich. *)
Lemma dietary_filter_rejects_iff_witness :
  is_admissible (A:=Q)
    (MenuItem 7 (Some "Turkey Sandwich") None None None None None None)
    {[ "gluten-free" ]} = true.
Proof.
  apply (proj1 (proj2 dietary_filter_rejects_iff)); vm_compute; intros H; discriminate H.
Defined.

(** C10.  Whatever the vegetarian flag excludes, the vegan flag excludes
    as well: replacing "vegetarian" by "vegan" in the flags keeps a rejected
    item rejected. *)
Theorem vegetarian_rejection_implies_vegan A (item : menu_item A)
    (dietary_flags : gset string) :
  "vegetarian" ∈ dietary_flags ->
  _violates_dietary_restrictions item dietary_flags = true ->
  _violates_dietary_restrictions item
    ({[ "vegan" ]} ∪ dietary_flags ∖ {[ "vegetarian" ]}) = true.
Proof.
  intros Hin. unfold _violates_dietary_restrictions.
  assert ("vegetarian" ∉ ({[ "vegan" ]} ∪ dietary_flags ∖ {[ "vegetarian" ]} : gset string))
    as Hout by set_solver.
  assert ("vegan" ∈ ({[ "vegan" ]} ∪ dietary_flags ∖ {[ "vegetarian" ]} : gset string))
    as Hvegan by set_solver.
  rewrite (bool_decide_eq_true_2 _ Hin), (bool_decide_eq_false_2 _ Hout),
    (bool_decide_eq_true_2 _ Hvegan). cbn [andb].
  destruct (any_word_in (MEAT_WORDS ++ SEAFOOD_WORDS) (blob item)); [done|].
  case_bool_decide; [|done]. by destruct (any_word_in DAIRY_EGG_WORDS (blob item)).
Qed.

Lemma vegetarian_rejection_implies_vegan_witness :
  _violates_dietary_restrictions (A:=Q)
    (MenuItem 7 (Some "Turkey Sandwich") None None None None None (Some ""))
    ({[ "vegan" ]} ∪ {[ "vegetarian"; "gluten-free" ]} ∖ {[ "vegetarian" ]}) = true.
Proof.
  apply (vegetarian_rejection_implies_vegan Q
           (MenuItem 7 (Some "Turkey Sandwich") None None None None None (Some ""))
           {[ "vegetarian"; "gluten-free" ]}).
  - vm_compute. reflexivity.
  - vm_compute. reflexivity.
Defined.

(** ** Preference scorer over the rationals *)

Section ScoreFacts.
Local Open Scope Q_scope.

Lemma or_zero_Q (x : option Q) : or_zero x == default 0 x.
Proof.
  destruct x as [v|]; simpl; [|reflexivity].
  destruct (Qeq_bool v 0) eqn:E; [|reflexivity].
  apply Qeq_bool_iff in E. by rewrite E.
Qed.

Lemma Q_of_nat_S n : Q_of_nat (S n) == 1 + Q_of_nat n.
Proof.
  unfold Q_of_nat. rewrite Nat2Z.inj_succ. unfold Z.succ.
  rewrite inject_Z_plus. ring.
Qed.

Lemma dietary_rules_Q dietary tags (score : Q) :
  dietary_rules dietary tags score
  == score + (tag_penalty "vegetarian" 100 dietary tags
              + tag_penalty "vegan" 100 dietary tags
              + tag_penalty "gluten-free" 50 dietary tags).
Proof.
  unfold dietary_rules, tag_penalty.
  destruct (mem "vegetarian" dietary && negb (mem "vegetarian" tags));
    destruct (mem "vegan" dietary && negb (mem "vegan" tags));
    destruct (mem "gluten-free" dietary && negb (mem "gluten-free" tags));
    simpl; ring.
Qed.

Lemma goal_rules_Q goal calories protein (score : Q) :
  goal_rules goal calories protein score
  == score + goal_adjustment goal calories protein.
Proof.
  unfold goal_rules, goal_adjustment.
  destruct (String.eqb goal "gain muscle"); [simpl; ring|].
  destruct (String.eqb goal "lose weight"); [simpl; ring|].
  destruct (String.eqb goal "maintain"); simpl; ring.
Qed.

Lemma favorite_rules_Q favs name (score : Q) :
  favorite_rules favs name score == score + 5 * Q_of_nat (matches favs name).
Proof.
  revert score. induction favs as [|fav rest IH]; intros score.
  - unfold matches. simpl. unfold Q_of_nat. simpl. ring.
  - cbn [favorite_rules]. rewrite IH. unfold matches. cbn [List.filter].
    destruct (Text.nonempty fav && Text.str_in fav name).
    + cbn [length]. rewrite Q_of_nat_S. simpl. ring.
    + reflexivity.
Qed.

Lemma dislike_rules_Q dislikes name (score : Q) :
  dislike_rules dislikes name score == score - 20 * Q_of_nat (matches dislikes name).
Proof.
  revert score. induction dislikes as [|bad rest IH]; intros score.
  - unfold matches. simpl. unfold Q_of_nat. simpl. ring.
  - cbn [dislike_rules]. rewrite IH. unfold matches. cbn [List.filter].
    destruct (Text.nonempty bad && Text.str_in bad name).
    + cbn [length]. rewrite Q_of_nat_S. simpl. ring.
    + reflexivity.
Qed.

(** The score of a user with preferences is the sum of its four terms. *)
Lemma score_decomposition (item : menu_item Q) (prefs : user_preferences) :
  let dietary := parse_list_field (dietary_restrictions prefs) in
  let tags := parse_list_field (mi_tags item) in
  let name := Text.lower (or_empty (mi_name item)) in
  score_menu_item item (Some prefs)
  == (tag_penalty "vegetarian" 100 dietary tags
      + tag_penalty "vegan" 100 dietary tags
      + tag_penalty "gluten-free" 50 dietary tags)
     + goal_adjustment (Text.lower (or_empty (wellness_goal prefs)))
         (default 0 (mi_calories item)) (default 0 (mi_protein item))
     + 5 * Q_of_nat (matches (parse_list_field (fav_cuisines prefs)) name)
     - 20 * Q_of_nat (matches (parse_list_field (disliked_items prefs)) name).
Proof.
  intros dietary tags name. unfold score_menu_item.
  rewrite dislike_rules_Q, favorite_rules_Q, goal_rules_Q, dietary_rules_Q.
  fold dietary tags name.
  assert (E : forall c c' p p' g, c == c' -> p == p' ->
              goal_adjustment g c p == goal_adjustment g c' p').
  { intros c c' p p' g Hc Hp. unfold goal_adjustment.
    repeat destruct (String.eqb g _); rewrite ?Hc, ?Hp; reflexivity. }
  rewrite (E _ _ _ _ _ (or_zero_Q (mi_calories item)) (or_zero_Q (mi_protein item))).
  simpl. ring.
Qed.

End ScoreFacts.

Lemma parse_list_field_empty field :
  or_empty field = EmptyString -> parse_list_field field = [].
Proof. destruct field as [s|]; simpl; [|done]. by intros ->. Qed.

Lemma tag_penalty_nil flag amount tags : tag_penalty flag amount [] tags = 0%Q.
Proof. reflexivity. Qed.

Lemma tag_penalty_spec flag amount dietary tags :
  tag_penalty flag amount dietary tags
  = if decide (flag ∈ dietary /\ flag ∉ tags) then (- amount)%Q else 0%Q.
Proof.
  unfold tag_penalty.
  destruct (decide (flag ∈ dietary /\ flag ∉ tags)) as [[Hd Ht]|Hn].
  - apply mem_spec in Hd. rewrite Hd.
    destruct (mem flag tags) eqn:Et; [by apply mem_spec in Et|done].
  - destruct (mem flag dietary) eqn:Ed; [|done].
    destruct (mem flag tags) eqn:Et; [done|].
    exfalso. apply Hn. split; [by apply mem_spec|].
    intros Hin%mem_spec. congruence.
Qed.

(** C3.  Without a preferences row the score is protein*0.3 - calories*0.05,
    an absent calories or protein value counting as 0, in any arithmetic;
    with calories 400 and protein 20 it is -14, over the rationals and in
    binary64. *)
Theorem cold_start_score :
  (forall A `{Number A} (item : menu_item A),
      score_menu_item item None
      = sub (mul (or_zero (mi_protein item)) (lit 0.3))
            (mul (or_zero (mi_calories item)) (lit 0.05)))
  /\ (forall A `{Number A}, or_zero (A:=A) None = lit 0)
  /\ (forall item : menu_item Q,
        score_menu_item item None
        == default 0 (mi_protein item) * 0.3 - default 0 (mi_calories item) * 0.05)%Q
  /\ (forall id name category carbs fat tags,
        score_menu_item
          (MenuItem id name category (Some 400) (Some 20) carbs fat tags) None
        == -14)%Q
  /\ (forall id name category carbs fat tags,
        score_menu_item
          (MenuItem id name category (Some 400%float) (Some 20%float) carbs fat tags) None
        = (-14)%float).
Proof.
  split; [|split; [|split; [|split]]].
  - reflexivity.
  - reflexivity.
  - intros item. unfold score_menu_item.
    rewrite (or_zero_Q (mi_protein item)), (or_zero_Q (mi_calories item)).
    reflexivity.
  - intros. vm_compute. reflexivity.
  - intros. vm_compute. reflexivity.
Qed.



(** C9.  A preferences row that is present but says nothing (empty or
    absent dietary restrictions, favorite cuisines and dislikes, and a goal
    that matches none of the three known ones) scores every item exactly 0,
    whatever its calories and protein, in any arithmetic; the cold start
    still uses both. *)
Theorem empty_preferences_score_zero A `{Number A}
    (item : menu_item A) (prefs : user_preferences) :
  or_empty (dietary_restrictions prefs) = EmptyString ->
  or_empty (fav_cuisines prefs) = EmptyString ->
  or_empty (disliked_items prefs) = EmptyString ->
  Text.lower (or_empty (wellness_goal prefs)) <> "gain muscle" ->
  Text.lower (or_empty (wellness_goal prefs)) <> "lose weight" ->
  Text.lower (or_empty (wellness_goal prefs)) <> "maintain" ->
  score_menu_item item (Some prefs) = lit 0
  /\ score_menu_item item None
     = sub (mul (or_zero (mi_protein item)) (lit 0.3))
           (mul (or_zero (mi_calories item)) (lit 0.05)).
Proof.
  intros Hd Hf Hk Hg1 Hg2 Hg3. split; [|reflexivity].
  unfold score_menu_item.
  rewrite (parse_list_field_empty _ Hd), (parse_list_field_empty _ Hf),
    (parse_list_field_empty _ Hk).
  apply String.eqb_neq in Hg1, Hg2, Hg3.
  unfold goal_rules. rewrite Hg1, Hg2, Hg3. reflexivity.
Qed.

Lemma empty_preferences_score_zero_witness :
  let item := MenuItem 3 (Some "Grilled Chicken") None
                (Some 400%float) (Some 20%float) None None (Some "") in
  score_menu_item item
    (Some (UserPreferences (Some "") (Some "Eat Well") None (Some "")))
  = 0%float
  /\ score_menu_item item None = (-14)%float.
Proof.
  intros item.
  assert (W := empty_preferences_score_zero float item
                 (UserPreferences (Some "") (Some "Eat Well") None (Some ""))).
  vm_compute in W. vm_compute.
  apply W; solve [reflexivity | discriminate].
Defined.

(** ** Daily macro aggregator *)

Section AggregateFacts.
Local Open Scope Q_scope.

Lemma add_totals_fields (rows : list (menu_item Q)) (t : totals Q) :
  totals_eq (add_totals rows t)
    {| calories := calories t + field_sum mi_calories rows;
       protein := protein t + field_sum mi_protein rows;
       carbs := carbs t + field_sum mi_carbs rows;
       fat := fat t + field_sum mi_fat rows |}.
Proof.
  revert t. induction rows as [|r rows IH]; intros t.
  - repeat split; simpl; ring.
  - cbn [add_totals field_sum].
    destruct (IH {| calories := (calories t + or_zero (mi_calories r))%num;
                    protein := (protein t + or_zero (mi_protein r))%num;
                    carbs := (carbs t + or_zero (mi_carbs r))%num;
                    fat := (fat t + or_zero (mi_fat r))%num |})
      as (Hc & Hp & Hb & Hf).
    repeat split; cbn [calories protein carbs fat] in *;
      [rewrite Hc|rewrite Hp|rewrite Hb|rewrite Hf];
      cbn [add Number_Q]; rewrite or_zero_Q; ring.
Qed.

Lemma aggregate_fields (rows : list (menu_item Q)) :
  totals_eq (aggregate rows)
    {| calories := field_sum mi_calories rows;
       protein := field_sum mi_protein rows;
       carbs := field_sum mi_carbs rows;
       fat := field_sum mi_fat rows |}.
Proof.
  destruct (add_totals_fields rows
              {| calories := 0; protein := 0; carbs := 0; fat := 0 |})
    as (Hc & Hp & Hb & Hf).
  unfold aggregate. repeat split; cbn [calories protein carbs fat] in *;
    [rewrite Hc|rewrite Hp|rewrite Hb|rewrite Hf]; ring.
Qed.

Lemma field_sum_app f (rows1 rows2 : list (menu_item Q)) :
  field_sum f (rows1 ++ rows2) == field_sum f rows1 + field_sum f rows2.
Proof.
  induction rows1 as [|r rows1 IH]; simpl; [ring|]. rewrite IH. ring.
Qed.

End AggregateFacts.


(** In binary64 the two sides of the additivity equation agree only up to
    rounding, which the specification accepts: with fat 0.1, 0.2 and 0.3 the
    running sum and the sum of the two partial sums differ in the last
    place. *)
Remark aggregate_binary64_rounding :
  let row x := MenuItem 1 (Some "Side") None None None None (Some (lit (A:=float) x)) None in
  fat (aggregate ([row 0.1%Q] ++ [row 0.2%Q; row 0.3%Q])) = 0x1.3333333333334p-1%float
  /\ add (fat (aggregate [row 0.1%Q])) (fat (aggregate [row 0.2%Q; row 0.3%Q]))
     = 0x1.3333333333333p-1%float.
Proof. vm_compute. split; reflexivity. Qed.

(** ** Diversified selector *)

Section SelectorFacts.
Context {A : Type} `{Number A}.

Lemma filter_and_score_items (raw_items : list (menu_item A)) prefs flags :
  filter_and_score raw_items prefs flags
  = map (fun item => (item, score_menu_item item prefs)) (admissible raw_items flags).
Proof.
  unfold admissible, is_admissible.
  induction raw_items as [|item rest IH]; simpl; [done|].
  destruct (_violates_dietary_restrictions item flags); simpl; by rewrite IH.
Qed.

Lemma displayed_items_admissible (raw_items : list (menu_item A)) prefs flags :
  displayed_items raw_items prefs flags = admissible raw_items flags.
Proof.
  unfold displayed_items. rewrite filter_and_score_items, map_map. apply map_id.
Qed.

Lemma insert_desc_perm t (l : list (menu_item A * A)) :
  Permutation (insert_desc t l) (t :: l).
Proof.
  induction l as [|u rest IH]; simpl; [done|].
  destruct (ltb (snd t) (snd u)); [|done].
  rewrite IH. apply perm_swap.
Qed.

Lemma sort_desc_perm (l : list (menu_item A * A)) : Permutation (sort_desc l) l.
Proof.
  induction l as [|t rest IH]; simpl; [done|].
  rewrite insert_desc_perm. by constructor.
Qed.

(** The selection loop keeps its categories distinct, stops at three and
    takes its items from the candidates. *)
Lemma pick_invariant (scored : list (menu_item A * A)) recs (used : gset string) :
  (forall c, c ∈ used <-> c ∈ categories recs) ->
  NoDup (categories recs) ->
  length recs < 3 ->
  NoDup (categories (pick scored recs used))
  /\ length (pick scored recs used) <= 3
  /\ (forall x, x ∈ pick scored recs used -> x ∈ recs \/ x ∈ map fst scored).
Proof.
  revert recs used. induction scored as [|[item sc] rest IH]; intros recs used Hu Hn Hl.
  - simpl. split; [done|]. split; [lia|auto].
  - cbn [pick]. case_bool_decide as Hc.
    + destruct (IH recs used Hu Hn Hl) as (? & ? & Hin).
      split; [done|]. split; [done|].
      intros x Hx. destruct (Hin x Hx); [auto|]. right. simpl. set_solver.
    + assert (Hn' : NoDup (categories (recs ++ [item]))).
      { unfold categories. rewrite map_app. simpl.
        apply NoDup_app. split; [done|]. split; [|apply NoDup_singleton].
        intros c Hin Hc'%list_elem_of_singleton. subst c. apply Hc, Hu, Hin. }
      destruct (Nat.eqb_spec (length (recs ++ [item])) 3) as [E|E].
      * split; [done|]. split; [lia|].
        intros x [?|Hx%list_elem_of_singleton]%elem_of_app; [auto|].
        subst x. right. simpl. set_solver.
      * rewrite length_app in E. simpl in E.
        destruct (IH (recs ++ [item]) ({[infer_category (mi_name item)]} ∪ used))
          as (? & ? & Hin); [| done | rewrite length_app; simpl; lia |].
        { intros c. unfold categories. rewrite map_app, elem_of_app. simpl.
          rewrite list_elem_of_singleton, elem_of_union, elem_of_singleton, Hu.
          unfold categories. tauto. }
        split; [done|]. split; [done|].
        intros x Hx.
        destruct (Hin x Hx) as [[?|Hx'%list_elem_of_singleton]%elem_of_app|?];
          [auto| |]; right; simpl; set_solver.
Qed.

Lemma recommend_from_admissible (raw_items : list (menu_item A)) prefs flags x :
  x ∈ recommend raw_items prefs flags -> x ∈ admissible raw_items flags.
Proof.
  unfold recommend. intros Hx.
  destruct (pick_invariant
              (sort_desc (filter_and_score raw_items prefs flags)) [] ∅)
    as (_ & _ & Hin); [set_solver | constructor | simpl; lia |].
  destruct (Hin x Hx) as [Hnil|Hs]; [by apply elem_of_nil in Hnil|].
  rewrite sort_desc_perm in Hs.
  by rewrite <- (displayed_items_admissible raw_items prefs flags).
Qed.

End SelectorFacts.

(** C6.  No two recommended items share an inferred category, there are at
    most three of them and at most as many as there are distinct categories
    among the admissible items, and no items give no recommendations; the
    same holds with the flags the dashboard derives from the preferences. *)
Theorem recommend_diverse A `{Number A}
    (raw_items : list (menu_item A)) (prefs : option user_preferences)
    (dietary_flags : gset string) :
  NoDup (categories (recommend raw_items prefs dietary_flags))
  /\ length (recommend raw_items prefs dietary_flags)
     <= Nat.min 3 (distinct_categories (admissible raw_items dietary_flags))
  /\ recommend (A:=A) [] prefs dietary_flags = []
  /\ NoDup (categories (dashboard_recommendations raw_items prefs)).
Proof.
  assert (Hpick : forall flags,
             NoDup (categories (recommend raw_items prefs flags))
             /\ length (recommend raw_items prefs flags) <= 3).
  { intros flags. unfold recommend.
    destruct (pick_invariant
                (sort_desc (filter_and_score raw_items prefs flags)) [] ∅)
      as (? & ? & _); [set_solver | constructor | simpl; lia | done]. }
  destruct (Hpick dietary_flags) as [Hn Hl].
  split; [done|]. split; [|split; [reflexivity|apply Hpick]].
  apply Nat.min_glb; [done|].
  unfold distinct_categories.
  rewrite <- (length_map (fun item => infer_category (mi_name item))
                (recommend raw_items prefs dietary_flags)).
  apply submseteq_length, NoDup_submseteq; [done|].
  intros c (x & Hc & Hx)%list_elem_of_fmap. subst c.
  apply elem_of_remove_dups, list_elem_of_fmap.
  exists x. split; [done|]. by apply recommend_from_admissible in Hx.
Qed.

(** ** The sort of the candidates, over the rationals *)

Section SortFacts.
Local Open Scope Q_scope.
Implicit Types (t u : menu_item Q * Q) (l : list (menu_item Q * Q)).

Lemma ltb_Q_true (x y : Q) : ltb x y = true -> x < y.
Proof.
  cbn [ltb Number_Q]. intros E%negb_true_iff.
  apply Qnot_le_lt. intros Hle%Qle_bool_iff. congruence.
Qed.

Lemma ltb_Q_false (x y : Q) : ltb x y = false -> y <= x.
Proof.
  cbn [ltb Number_Q]. intros E%negb_false_iff. by apply Qle_bool_iff.
Qed.

Lemma insert_desc_descending t l : descending l -> descending (insert_desc t l).
Proof.
  unfold descending. induction l as [|u rest IH]; intros Hs; cbn [insert_desc].
  - repeat constructor.
  - apply StronglySorted_inv in Hs as [Hrest Hu].
    destruct (ltb (snd t) (snd u)) eqn:E.
    + constructor; [auto|].
      rewrite insert_desc_perm. constructor; [|done].
      apply Qlt_le_weak. by apply ltb_Q_true.
    + apply ltb_Q_false in E.
      constructor; [by constructor|]. constructor; [done|].
      eapply Forall_impl; [exact Hu|]. intros x Hx. simpl in Hx. by apply (Qle_trans _ (snd u)).
Qed.

Lemma sort_desc_descending l : descending (sort_desc l).
Proof.
  induction l as [|t rest IH]; simpl; [constructor|].
  by apply insert_desc_descending.
Qed.

(** Insertion never reorders two elements of one score class. *)
Lemma with_score_insert q t l :
  with_score q (insert_desc t l) = with_score q (t :: l).
Proof.
  unfold with_score. induction l as [|u rest IH]; [done|].
  cbn [insert_desc]. destruct (ltb (snd t) (snd u)) eqn:E; [|done].
  apply ltb_Q_true in E. cbn [List.filter] in *. rewrite IH.
  destruct (Qeq_bool (snd t) q) eqn:Et; [|done].
  destruct (Qeq_bool (snd u) q) eqn:Eu; [|done].
  apply Qeq_bool_iff in Et, Eu. rewrite Et, Eu in E.
  by apply Qlt_irrefl in E.
Qed.

Lemma with_score_sort q l : with_score q (sort_desc l) = with_score q l.
Proof.
  induction l as [|t rest IH]; [done|].
  cbn [sort_desc]. rewrite with_score_insert.
  unfold with_score in *. cbn [List.filter]. by rewrite IH.
Qed.

Lemma with_score_head t l : with_score (snd t) (t :: l) = t :: with_score (snd t) l.
Proof. unfold with_score. cbn [List.filter]. by rewrite Qeq_bool_refl. Qed.

Lemma descending_head t u l : descending (u :: l) -> t ∈ u :: l -> snd t <= snd u.
Proof.
  intros [_ Hu]%StronglySorted_inv [->|Hin]%elem_of_cons; [apply Qle_refl|].
  rewrite Forall_forall in Hu. by apply Hu.
Qed.

Lemma with_score_elem q t l : t ∈ with_score q l -> t ∈ l.
Proof.
  unfold with_score. rewrite !list_elem_of_In, filter_In. tauto.
Qed.

(** A decreasing list is determined by its score classes: the stable
    arrangement by decreasing score is unique. *)
Lemma descending_unique l1 l2 :
  descending l1 -> descending l2 ->
  (forall q, with_score q l1 = with_score q l2) -> l1 = l2.
Proof.
  revert l2. induction l1 as [|a l1 IH]; intros [|b l2] H1 H2 Hq.
  - done.
  - specialize (Hq (snd b)). rewrite with_score_head in Hq. done.
  - specialize (Hq (snd a)). rewrite with_score_head in Hq. done.
  - assert (Hab : snd a <= snd b).
    { apply (descending_head a b l2 H2), (with_score_elem (snd a)).
      rewrite <- Hq, with_score_head. by left. }
    assert (Hba : snd b <= snd a).
    { apply (descending_head b a l1 H1), (with_score_elem (snd b)).
      rewrite Hq, with_score_head. by left. }
    assert (E : snd b == snd a) by (by apply Qle_antisym).
    assert (a = b) as <-.
    { pose proof (Hq (snd a)) as Ha. rewrite with_score_head in Ha.
      unfold with_score in Ha. cbn [List.filter] in Ha.
      apply Qeq_bool_iff in E. rewrite E in Ha. congruence. }
    f_equal. apply IH.
    + by apply StronglySorted_inv in H1 as [? _].
    + by apply StronglySorted_inv in H2 as [? _].
    + intros q. specialize (Hq q). unfold with_score in *.
      cbn [List.filter] in Hq. destruct (Qeq_bool (snd a) q); congruence.
Qed.

End SortFacts.



(** ** Docstring examples and scenarios *)

Example lower_example : Text.lower "Gain MUSCLE; x" = "gain muscle; x".
Proof. reflexivity. Qed.

Example strip_example : Text.strip "  a b  " = "a b".
Proof. reflexivity. Qed.

Example split_example : Text.split Text.comma "a,,b," = ["a"; ""; "b"; ""].
Proof. reflexivity. Qed.

Example str_in_example :
  Text.str_in "ham" "graham cracker" = true /\ Text.str_in "" "x" = true
  /\ Text.str_in "ham" "ha m" = false.
Proof. repeat split. Qed.

(** The docstring of [parse_list_field]. *)
Example parse_list_field_docstring :
  parse_list_field (Some "Italian, Indian ") = ["italian"; "indian"]
  /\ parse_list_field (Some "") = [] /\ parse_list_field None = [].
Proof. repeat split. Qed.

(** The docstring of [_load_dietary_flags]. *)
Example load_dietary_flags_docstring :
  _load_dietary_flags
    (Some (UserPreferences (Some "Vegetarian, Gluten Free") None None None))
  = {[ "vegetarian"; "gluten free" ]}.
Proof. vm_compute. reflexivity. Qed.

Example load_dietary_flags_semicolon :
  _load_dietary_flags
    (Some (UserPreferences (Some "Vegan; gluten-free,, ") None None None))
  = {[ "vegan"; "gluten-free" ]}.
Proof. vm_compute. reflexivity. Qed.

Example infer_category_examples :
  infer_category (Some "Cheese Omelette") = "eggs"
  /\ infer_category (Some "French Toast") = "bread"
  /\ infer_category (Some "Eggplant Wrap") = "eggs"
  /\ infer_category (Some "Rice") = "other"
  /\ infer_category None = "other".
Proof. repeat split. Qed.

(** Scenario 1: a turkey sandwich is not admissible for a vegetarian. *)
Example scenario_turkey_sandwich :
  is_admissible (A:=Q)
    (MenuItem 1 (Some "Turkey Sandwich") None None None None None (Some ""))
    {[ "vegetarian" ]} = false.
Proof. vm_compute. reflexivity. Qed.

(** Scenario 5: the second waffle is skipped as a duplicate category. *)
Example scenario_waffles :
  let row id name protein :=
    MenuItem id (Some name) None None (Some protein) None None (Some "") in
  recommend [row 1%Z "Belgian Waffles" 30%Q; row 2%Z "Salad" 20%Q;
             row 3%Z "Waffles" 40%Q] None ∅
  = [row 3%Z "Waffles" 40%Q; row 2%Z "Salad" 20%Q].
Proof. vm_compute. reflexivity. Qed.

(** The filter and the scorer read the same field differently: with
    ["vegan; gluten-free"] the filter sees two flags, the scorer one token
    that matches no rule. *)
Example filter_and_scorer_tokens :
  _load_dietary_flags
    (Some (UserPreferences (Some "vegan; gluten-free") None None None))
  = {[ "vegan"; "gluten-free" ]}
  /\ parse_list_field (Some "vegan; gluten-free") = ["vegan; gluten-free"].
Proof. split; [vm_compute; reflexivity|reflexivity]. Qed.

(** * Further properties of the code *)

(** ** Category classifier *)

Lemma first_category_sound table text :
  first_category table text = "other"
  \/ exists keywords k,
       (first_category table text, keywords) ∈ table
       /\ k ∈ keywords /\ Text.str_in k text = true.
Proof.
  induction table as [|[cat keywords] rest IH]; simpl; [by left|].
  destruct (any_word_in keywords text) eqn:E.
  - right. apply any_word_in_spec in E as (k & Hk & Hin).
    exists keywords, k. split; [by left|done].
  - destruct IH as [IH|(kws & k & Hin & Hk)]; [by left|].
    right. exists kws, k. split; [by right|done].
Qed.

Lemma first_category_other table text :
  "other" ∉ map fst table ->
  first_category table text = "other" <-> no_keyword table text.
Proof.
  unfold no_keyword. induction table as [|[cat keywords] rest IH]; simpl; intros Hno.
  - split; [constructor|done].
  - rewrite not_elem_of_cons in Hno. destruct Hno as [Hcat Hrest].
    rewrite Forall_cons. simpl.
    destruct (any_word_in keywords text); [|rewrite (IH Hrest); tauto].
    split; [congruence|intros [? _]; done].
Qed.

Lemma first_category_skip before rest text :
  no_keyword before text ->
  first_category (before ++ rest) text = first_category rest text.
Proof.
  unfold no_keyword. induction before as [|[cat keywords] before IH]; [done|].
  intros [E Hb]%Forall_cons. simpl in *. rewrite E. by apply IH.
Qed.

(** X1.  [infer_category] answers "other" exactly when no keyword of any
    category occurs in the lower-cased name (an absent name counts as
    empty); any other answer is a category of the table one of whose
    keywords occurs in the lower-cased name. *)
Theorem infer_category_other_iff (name : option string) :
  (infer_category name = "other"
   <-> no_keyword CATEGORY_KEYWORDS (Text.lower (or_empty name)))
  /\ (infer_category name = "other"
      \/ exists keywords k,
           (infer_category name, keywords) ∈ CATEGORY_KEYWORDS
           /\ k ∈ keywords
           /\ Text.str_in k (Text.lower (or_empty name)) = true).
Proof.
  split.
  - apply first_category_other. vm_compute. intros H.
    repeat (apply elem_of_cons in H as [H|H]; [discriminate H|]).
    by apply elem_of_nil in H.
  - apply first_category_sound.
Qed.

(** X2.  The categories are tried in declaration order: the first one with
    a keyword in the lower-cased name wins, whatever later categories would
    match. *)
Theorem infer_category_first_match (name : option string)
    before cat keywords after :
  CATEGORY_KEYWORDS = before ++ (cat, keywords) :: after ->
  no_keyword before (Text.lower (or_empty name)) ->
  any_word_in keywords (Text.lower (or_empty name)) = true ->
  infer_category name = cat.
Proof.
  intros Htable Hbefore Hmatch. unfold infer_category.
  rewrite Htable, first_category_skip by done. simpl. by rewrite Hmatch.
Qed.

Lemma infer_category_first_match_witness :
  infer_category (Some "Egg Salad Sandwich") = "eggs".
Proof.
  apply (infer_category_first_match (Some "Egg Salad Sandwich")
           [("waffle", ["waffle"]); ("pancake", ["pancake"]);
            ("bagel", ["bagel"]); ("bread", ["toast"; "bread"])]
           "eggs" ["egg"; "omelet"; "omelette"]
           [("yogurt", ["yogurt"]); ("oatmeal", ["oatmeal"; "oats"]);
            ("salad", ["salad"]); ("soup", ["soup"]);
            ("sandwich", ["sandwich"; "wrap"]); ("pizza", ["pizza"]);
            ("burger", ["burger"])]).
  - reflexivity.
  - repeat constructor.
  - reflexivity.
Defined.

(** ** Dietary filter *)

(** X3.  The filter is monotone in the flags: an item rejected for a set of
    flags stays rejected for every larger set, so adding a restriction
    never brings an item back. *)
Theorem dietary_filter_monotone A (item : menu_item A)
    (flags flags' : gset string) :
  flags ⊆ flags' ->
  _violates_dietary_restrictions item flags = true ->
  _violates_dietary_restrictions item flags' = true.
Proof.
  intros Hsub. unfold _violates_dietary_restrictions.
  destruct (any_word_in (MEAT_WORDS ++ SEAFOOD_WORDS) (blob item));
    destruct (any_word_in DAIRY_EGG_WORDS (blob item));
    repeat case_bool_decide; cbn [andb]; try done; set_solver.
Qed.

Lemma dietary_filter_monotone_witness :
  _violates_dietary_restrictions (A:=Q)
    (MenuItem 4 (Some "Bacon Cheeseburger") None None None None None (Some ""))
    {[ "vegetarian"; "gluten-free" ]} = true.
Proof.
  apply (dietary_filter_monotone Q
           (MenuItem 4 (Some "Bacon Cheeseburger") None None None None None (Some ""))
           {[ "vegetarian" ]} {[ "vegetarian"; "gluten-free" ]}).
  - set_solver.
  - vm_compute. reflexivity.
Defined.

(** ** Diversified selector: what the walk picks *)

Section PickFacts.
Context {A : Type} `{Number A}.
Implicit Types (items : list (menu_item A)) (used : gset string).

(** The selection loop is the walk cut off at three items. *)
Lemma pick_take (scored : list (menu_item A * A)) recs used :
  length recs < 3 ->
  pick scored recs used
  = recs ++ take (3 - length recs) (first_of_each_category (map fst scored) used).
Proof.
  revert recs used. induction scored as [|[item sc] rest IH]; intros recs used Hl.
  - simpl. by rewrite take_nil, app_nil_r.
  - cbn [pick map fst first_of_each_category]. case_bool_decide; [by apply IH|].
    rewrite length_app. cbn [length].
    destruct (Nat.eqb_spec (length recs + 1) 3) as [E|E].
    + replace (3 - length recs) with 1 by lia. by rewrite firstn_cons, take_0.
    + rewrite IH by (rewrite length_app; simpl; lia).
      rewrite length_app. cbn [length].
      replace (3 - length recs) with (S (3 - (length recs + 1))) by lia.
      by rewrite firstn_cons, <- app_assoc.
Qed.

Lemma recommend_take (raw_items : list (menu_item A)) prefs flags :
  recommend raw_items prefs flags
  = take 3 (first_of_each_category
              (map fst (sort_desc (filter_and_score raw_items prefs flags))) ∅).
Proof. unfold recommend. rewrite pick_take by (simpl; lia). done. Qed.

Lemma first_of_each_sublist items used :
  sublist (first_of_each_category items used) items.
Proof.
  revert used. induction items as [|item rest IH]; intros used; simpl; [done|].
  case_bool_decide; [by apply sublist_cons|by apply sublist_skip].
Qed.

(** An item is met first for its category iff nothing before it has its
    category and the category is not used yet. *)
Lemma first_of_each_elem items used r :
  r ∈ first_of_each_category items used ->
  (infer_category (mi_name r) ∉ used)
  /\ exists before after,
       items = before ++ r :: after
       /\ forall y, y ∈ before -> infer_category (mi_name y) <> infer_category (mi_name r).
Proof.
  revert used. induction items as [|item rest IH]; intros used; simpl.
  - by intros ?%elem_of_nil.
  - case_bool_decide as Hc.
    + intros (Hr & before & after & -> & Hb)%IH. split; [done|].
      exists (item :: before), after. split; [done|].
      intros y [->|Hy]%elem_of_cons; [congruence|by apply Hb].
    + intros [->|Hin]%elem_of_cons.
      * split; [done|]. exists [], rest. split; [done|]. by intros y ?%elem_of_nil.
      * apply IH in Hin as (Hr & before & after & -> & Hb).
        split; [set_solver|].
        exists (item :: before), after. split; [done|].
        intros y [->|Hy]%elem_of_cons; [set_solver|by apply Hb].
Qed.

Lemma first_of_each_covers items used c :
  c ∈ categories items -> c ∉ used ->
  c ∈ categories (first_of_each_category items used).
Proof.
  revert used. induction items as [|item rest IH]; intros used; simpl.
  - by intros ?%elem_of_nil.
  - intros [->|Hin]%elem_of_cons Hc.
    + rewrite bool_decide_eq_false_2 by done. by left.
    + case_bool_decide; [by apply IH|].
      destruct (decide (c = infer_category (mi_name item))) as [->|Hne];
        [by left|]. right. apply IH; [done|set_solver].
Qed.

Lemma first_of_each_NoDup items used :
  NoDup (categories (first_of_each_category items used)).
Proof.
  revert used. induction items as [|item rest IH]; intros used; simpl; [constructor|].
  case_bool_decide; [apply IH|]. simpl. constructor; [|apply IH].
  intros (r & Hc & Hr)%list_elem_of_fmap.
  apply first_of_each_elem in Hr as [Hr _]. set_solver.
Qed.

Lemma first_of_each_length items :
  length (first_of_each_category items ∅) = distinct_categories items.
Proof.
  unfold distinct_categories.
  rewrite <- (length_map (fun item => infer_category (mi_name item))
                (first_of_each_category items ∅)).
  apply Permutation_length, NoDup_Permutation.
  - apply first_of_each_NoDup.
  - apply NoDup_remove_dups.
  - intros c. rewrite elem_of_remove_dups. split.
    + intros (r & -> & Hr)%list_elem_of_fmap. apply list_elem_of_fmap.
      exists r. split; [done|].
      by apply (sublist_subseteq _ _ (first_of_each_sublist items ∅)).
    + intros Hc. by apply first_of_each_covers.
Qed.

Lemma distinct_categories_perm items items' :
  Permutation items items' -> distinct_categories items = distinct_categories items'.
Proof.
  intros Hp. unfold distinct_categories.
  apply Permutation_length, NoDup_Permutation; [apply NoDup_remove_dups..|].
  intros c. rewrite !elem_of_remove_dups. unfold categories. by rewrite Hp.
Qed.

Lemma sorted_items_perm (raw_items : list (menu_item A)) prefs flags :
  Permutation (map fst (sort_desc (filter_and_score raw_items prefs flags)))
    (admissible raw_items flags).
Proof.
  rewrite sort_desc_perm.
  by rewrite <- (displayed_items_admissible raw_items prefs flags).
Qed.

End PickFacts.

(** X4.  The recommendations are exactly as many as allowed: three, or the
    number of distinct categories among the admissible items when there
    are fewer; in particular there is none only when nothing is
    admissible. *)
Theorem recommend_length A `{Number A} (raw_items : list (menu_item A))
    (prefs : option user_preferences) (dietary_flags : gset string) :
  length (recommend raw_items prefs dietary_flags)
  = Nat.min 3 (distinct_categories (admissible raw_items dietary_flags))
  /\ (recommend raw_items prefs dietary_flags = []
      <-> admissible raw_items dietary_flags = []).
Proof.
  assert (E : length (recommend raw_items prefs dietary_flags)
              = Nat.min 3 (distinct_categories (admissible raw_items dietary_flags))).
  { rewrite recommend_take, length_take, first_of_each_length.
    by rewrite (distinct_categories_perm _ _
                  (sorted_items_perm raw_items prefs dietary_flags)). }
  split; [done|].
  split; intros Hnil.
  - rewrite Hnil in E. simpl in E.
    destruct (admissible raw_items dietary_flags) as [|x l]; [done|].
    unfold distinct_categories in E. exfalso.
    assert (Hx : infer_category (mi_name x) ∈ remove_dups (categories (x :: l))).
    { apply elem_of_remove_dups. by left. }
    destruct (remove_dups (categories (x :: l))); [by apply elem_of_nil in Hx|].
    simpl in E. lia.
  - rewrite Hnil in E. destruct (recommend raw_items prefs dietary_flags); [done|].
    simpl in E. lia.
Qed.

(** ** Diversified selector: scores of the recommendations *)

Section RankingFacts.
Local Open Scope Q_scope.
Variables (raw_items : list (menu_item Q)) (prefs : option user_preferences)
          (dietary_flags : gset string).

Local Abbreviation at_least := (at_least prefs).
Local Abbreviation ranked := (ranked raw_items prefs dietary_flags).

Lemma StronglySorted_sublist {B} (R : B -> B -> Prop) (l1 l2 : list B) :
  sublist l1 l2 -> StronglySorted R l2 -> StronglySorted R l1.
Proof.
  induction 1 as [|x l1 l2 Hs IH|x l1 l2 Hs IH]; [done| |];
    intros [Hx Hl]%StronglySorted_cons.
  - apply StronglySorted_cons. split; [|by apply IH].
    rewrite Forall_forall in *. intros y Hy. apply Hx.
    by apply (sublist_subseteq _ _ Hs).
  - by apply IH.
Qed.

Lemma ranked_descending : StronglySorted at_least ranked.
Proof.
  unfold ranked, at_least.
  pose proof (sort_desc_descending (filter_and_score raw_items prefs dietary_flags)) as Hd.
  assert (Hsc : Forall (fun t => snd t = score_menu_item (fst t) prefs)
                  (sort_desc (filter_and_score raw_items prefs dietary_flags))).
  { rewrite sort_desc_perm, filter_and_score_items.
    apply Forall_forall. by intros t (i & -> & _)%list_elem_of_fmap. }
  unfold descending in Hd.
  induction (sort_desc (filter_and_score raw_items prefs dietary_flags))
    as [|t l IH]; simpl; [constructor|].
  apply StronglySorted_cons in Hd as [Ht Hl].
  apply Forall_cons in Hsc as [Et El].
  apply StronglySorted_cons. split; [|by apply IH].
  rewrite Forall_forall in Ht. rewrite Forall_forall in El.
  apply Forall_forall. intros y (u & -> & Hu)%list_elem_of_fmap.
  rewrite <- Et, <- (El u Hu). by apply Ht.
Qed.

Lemma ranked_admissible x : x ∈ ranked <-> x ∈ admissible raw_items dietary_flags.
Proof. unfold ranked. by rewrite sorted_items_perm. Qed.

(** The first item met for a category is a best one of that category. *)
Lemma first_of_each_best y x :
  y ∈ first_of_each_category ranked ∅ ->
  x ∈ ranked ->
  infer_category (mi_name x) = infer_category (mi_name y) ->
  at_least y x.
Proof.
  intros (_ & before & after & E & Hb)%first_of_each_elem Hx Hc.
  pose proof ranked_descending as Hs. rewrite E in Hs, Hx.
  apply StronglySorted_app_1_r, StronglySorted_cons in Hs as [Hy _].
  apply elem_of_app in Hx as [Hx|[->|Hx]%elem_of_cons].
  - by destruct (Hb x Hx).
  - apply Qle_refl.
  - rewrite Forall_forall in Hy. by apply Hy.
Qed.

Lemma recommend_sorted : StronglySorted at_least (recommend raw_items prefs dietary_flags).
Proof.
  rewrite recommend_take. fold ranked.
  eapply StronglySorted_sublist; [|apply ranked_descending].
  etrans; [apply sublist_take|apply first_of_each_sublist].
Qed.

Lemma recommend_best_of_category r x :
  r ∈ recommend raw_items prefs dietary_flags ->
  x ∈ admissible raw_items dietary_flags ->
  infer_category (mi_name x) = infer_category (mi_name r) ->
  at_least r x.
Proof.
  rewrite recommend_take. fold ranked. intros Hr Hx Hc.
  apply first_of_each_best; [|by apply ranked_admissible|done].
  by apply (sublist_subseteq _ _ (sublist_take _ 3)).
Qed.

Lemma recommend_beats_left_out x :
  x ∈ admissible raw_items dietary_flags ->
  infer_category (mi_name x) ∉ categories (recommend raw_items prefs dietary_flags) ->
  length (recommend raw_items prefs dietary_flags) = 3%nat
  /\ forall r, r ∈ recommend raw_items prefs dietary_flags -> at_least r x.
Proof.
  rewrite recommend_take. fold ranked.
  set (walk := first_of_each_category ranked ∅).
  intros Hx%ranked_admissible Hc.
  assert (Hcov : infer_category (mi_name x) ∈ categories walk).
  { apply first_of_each_covers; [|set_solver].
    apply list_elem_of_fmap. by exists x. }
  apply list_elem_of_fmap in Hcov as (y & Ey & Hy).
  pose proof (first_of_each_best y x Hy Hx Ey) as Hxy.
  rewrite <- (take_drop 3 walk) in Hy.
  apply elem_of_app in Hy as [Hy|Hy].
  { destruct Hc. apply list_elem_of_fmap. by exists y. }
  assert (Hs : StronglySorted at_least (take 3 walk ++ drop 3 walk)).
  { rewrite take_drop. eapply StronglySorted_sublist;
      [apply first_of_each_sublist|apply ranked_descending]. }
  split.
  - rewrite length_take. apply list_elem_of_lookup in Hy as [i Hi].
    apply lookup_lt_Some in Hi. rewrite length_drop in Hi. lia.
  - intros r Hr. unfold at_least in *.
    apply (Qle_trans _ (score_menu_item y prefs)); [done|].
    apply (StronglySorted_app_1_elem_of _ _ _ r y Hs Hr Hy).
Qed.

End RankingFacts.







(** ** Daily macro aggregator: order and sign *)

Section AggregateMore.
Local Open Scope Q_scope.

Lemma field_sum_perm f (rows rows' : list (menu_item Q)) :
  Permutation rows rows' -> field_sum f rows == field_sum f rows'.
Proof.
  induction 1 as [|r l l' _ IH|r1 r2 l|l1 l2 l3 _ IH1 _ IH2]; simpl.
  - reflexivity.
  - by rewrite IH.
  - ring.
  - by rewrite IH1.
Qed.

Lemma field_sum_nonneg f (rows : list (menu_item Q)) :
  Forall (fun r => 0 <= default 0 (f r)) rows -> 0 <= field_sum f rows.
Proof.
  induction 1 as [|r l Hr _ IH]; simpl; [apply Qle_refl|].
  change (0 + 0 <= default 0 (f r) + field_sum f l). by apply Qplus_le_compat.
Qed.

End AggregateMore.





(** ** Letter case *)

Section CaseFacts.
Import Text.

Lemma nonempty_lower s : nonempty (lower s) = nonempty s.
Proof. by destruct s. Qed.

Lemma split_lower s : split comma (lower s) = map lower (split comma s).
Proof.
  induction s as [|c r IH]; simpl; [done|].
  rewrite lower_char_comma, IH.
  destruct (Ascii.eqb c comma); [done|]. by destruct (split comma r).
Qed.

Lemma parse_list_field_lower field :
  parse_list_field (option_map lower field) = parse_list_field field.
Proof.
  destruct field as [s|]; simpl; [|done].
  rewrite nonempty_lower. destruct (nonempty s); [|done].
  rewrite split_lower, map_map. apply map_ext. intros p.
  by rewrite lower_strip, lower_idem.
Qed.

Lemma or_empty_lower x : lower (or_empty (option_map lower x)) = lower (or_empty x).
Proof. destruct x; simpl; [apply lower_idem|done]. Qed.

Lemma flag_parts_lower s : flag_parts (lower s) = flag_parts s.
Proof. unfold flag_parts. by rewrite lower_idem. Qed.

End CaseFacts.

(** X10.  Letter case never matters: with every text field of the item and
    of the preferences lower-cased, the score (in any arithmetic), the
    filter's flags and verdict and the inferred category are the same. *)
Theorem case_insensitive A `{Number A} (item : menu_item A)
    (prefs : user_preferences) (dietary_flags : gset string) :
  score_menu_item (lower_item item) (Some (lower_prefs prefs))
  = score_menu_item item (Some prefs)
  /\ _load_dietary_flags (Some (lower_prefs prefs)) = _load_dietary_flags (Some prefs)
  /\ _violates_dietary_restrictions (lower_item item) dietary_flags
     = _violates_dietary_restrictions item dietary_flags
  /\ infer_category (mi_name (lower_item item)) = infer_category (mi_name item).
Proof.
  split; [|split; [|split]].
  - unfold score_menu_item, lower_item, lower_prefs.
    cbn [dietary_restrictions wellness_goal fav_cuisines disliked_items
         mi_name mi_tags mi_calories mi_protein].
    by rewrite !parse_list_field_lower, !or_empty_lower.
  - unfold _load_dietary_flags, lower_prefs. cbn [dietary_restrictions].
    destruct (dietary_restrictions prefs) as [d|]; simpl; [|done].
    by rewrite flag_parts_lower.
  - unfold _violates_dietary_restrictions, blob, lower_item. cbn [mi_name mi_tags].
    by rewrite !or_empty_lower.
  - unfold infer_category, lower_item. cbn [mi_name]. by rewrite or_empty_lower.
Qed.

(** ** The preferences form: what is written is what is read *)

Section JoinFacts.
Import Text.

Lemma str_in_char a s :
  str_in (String a EmptyString) s = false
  <-> str_forall (fun c => negb (Ascii.eqb c a)) s = true.
Proof.
  split; [|apply str_forall_not_in].
  induction s as [|c r IH]; simpl; [done|].
  rewrite (Ascii.eqb_sym a c). destruct (Ascii.eqb c a); simpl; [done|].
  exact IH.
Qed.

Lemma append_cons c r s : String.append (String c r) s = String c (String.append r s).
Proof. reflexivity. Qed.

Lemma append_nil_l s : String.append EmptyString s = s.
Proof. reflexivity. Qed.

Lemma append_nil_r s : String.append s EmptyString = s.
Proof. induction s as [|c r IH]; [done|]. by rewrite append_cons, IH. Qed.

Lemma lower_append s1 s2 :
  lower (String.append s1 s2) = String.append (lower s1) (lower s2).
Proof.
  induction s1 as [|c r IH]; [done|].
  cbn [lower]. rewrite !append_cons. cbn [lower]. by rewrite IH.
Qed.

Lemma split_hd_tl sep s : split sep s = hd EmptyString (split sep s) :: tl (split sep s).
Proof. pose proof (split_not_nil sep s). by destruct (split sep s). Qed.

Lemma split_app_free sep p s :
  str_forall (fun c => negb (Ascii.eqb c sep)) p = true ->
  split sep (String.append p s)
  = String.append p (hd EmptyString (split sep s)) :: tl (split sep s).
Proof.
  induction p as [|c r IH]; [intros _; apply split_hd_tl|].
  cbn [str_forall]. intros [Hc Hr]%andb_true_iff. apply negb_true_iff in Hc.
  rewrite !append_cons. cbn [split]. by rewrite Hc, (IH Hr).
Qed.

Lemma split_free sep p :
  str_forall (fun c => negb (Ascii.eqb c sep)) p = true -> split sep p = [p].
Proof.
  intros Hp. rewrite <- (append_nil_r p) at 1.
  rewrite (split_app_free sep p EmptyString Hp). cbn [split hd tl].
  by rewrite append_nil_r.
Qed.

(** Splitting what [", ".join] wrote gives the parts back, each but the
    first behind the blank of the separator. *)
Lemma split_join p rest :
  Forall comma_free (p :: rest) ->
  split comma (join ", " (p :: rest)) = p :: map (String.append " ") rest.
Proof.
  revert p. induction rest as [|q rest IH]; intros p [Hp Hrest]%Forall_cons.
  - simpl. apply split_free. by apply str_in_char.
  - change (join ", " (p :: q :: rest))
      with (String.append p (String comma (String.append " " (join ", " (q :: rest))))).
    rewrite split_app_free by (by apply str_in_char).
    cbn [split]. rewrite Ascii.eqb_refl. cbn [hd tl]. rewrite append_nil_r.
    rewrite (split_app_free comma " ") by done.
    rewrite (IH q Hrest). done.
Qed.

Lemma strip_blank s : strip (String.append " " s) = strip s.
Proof. reflexivity. Qed.

Lemma join_empty p rest : join ", " (p :: rest) = EmptyString -> p = EmptyString /\ rest = [].
Proof.
  destruct rest as [|q rest]; [done|].
  change (join ", " (p :: q :: rest))
    with (String.append p (String.append ", " (join ", " (q :: rest)))).
  destruct p; rewrite ?append_nil_l, !append_cons; discriminate.
Qed.

Lemma lower_join parts : lower (join ", " parts) = join ", " (map lower parts).
Proof.
  induction parts as [|p [|q rest] IH]; [done..|].
  change (join ", " (p :: q :: rest))
    with (String.append p (String.append ", " (join ", " (q :: rest)))).
  rewrite !lower_append, IH. done.
Qed.

Lemma comma_free_lower s : comma_free s -> comma_free (lower s).
Proof.
  unfold comma_free. rewrite !str_in_char. apply str_forall_lower.
  intros c. by rewrite lower_char_comma.
Qed.

Lemma comma_free_lower_all parts :
  Forall comma_free parts -> Forall comma_free (map lower parts).
Proof.
  induction 1 as [|p rest Hp _ IH]; simpl; constructor; [|done].
  by apply comma_free_lower.
Qed.

Lemma lower_char_semicolon c :
  Ascii.eqb (lower_char c) semicolon = Ascii.eqb c semicolon.
Proof. destruct c as [[] [] [] [] [] [] [] []]; reflexivity. Qed.

Lemma replace_free s :
  str_forall (fun c => negb (Ascii.eqb c semicolon)) s = true ->
  replace semicolon comma s = s.
Proof.
  induction s as [|c r IH]; simpl; [done|].
  intros [Hc Hr]%andb_true_iff. apply negb_true_iff in Hc. by rewrite Hc, IH.
Qed.

Lemma str_forall_append P s1 s2 :
  str_forall P (String.append s1 s2) = str_forall P s1 && str_forall P s2.
Proof.
  induction s1 as [|c r IH]; [done|].
  rewrite append_cons. cbn [str_forall]. by rewrite IH, andb_assoc.
Qed.

Lemma join_semicolon_free parts :
  Forall semicolon_free parts ->
  str_forall (fun c => negb (Ascii.eqb c semicolon)) (join ", " parts) = true.
Proof.
  induction 1 as [|p rest Hp Hrest IH]; [done|].
  apply str_in_char in Hp. destruct rest as [|q rest]; [done|].
  change (join ", " (p :: q :: rest))
    with (String.append p (String.append ", " (join ", " (q :: rest)))).
  unfold semicolon in *. rewrite !str_forall_append, Hp, IH. done.
Qed.

Lemma flag_parts_posted dietary :
  Forall comma_free dietary -> Forall semicolon_free dietary ->
  flag_parts (dietary_str dietary)
  = match dietary with
    | [] => [EmptyString]
    | d :: rest => lower d :: map (fun x => String.append " " (lower x)) rest
    end.
Proof.
  intros Hc Hs. unfold flag_parts, dietary_str.
  rewrite replace_free.
  - rewrite lower_join. destruct dietary as [|d rest]; [done|].
    cbn [map]. rewrite split_join.
    + by rewrite map_map.
    + by apply (comma_free_lower_all (d :: rest)).
  - apply str_forall_lower; [|by apply join_semicolon_free].
    intros c. by rewrite lower_char_semicolon.
Qed.

End JoinFacts.

(** X11.  What the preferences form stores for the checked dietary boxes
    is read back by the scorer as these values, lower-cased and trimmed, in
    order: provided no value contains a comma (and the stored text is not
    empty, which only the single empty value gives). *)
Theorem posted_dietary_parsed (dietary : list string) :
  Forall comma_free dietary ->
  dietary <> [EmptyString] ->
  parse_list_field (Some (dietary_str dietary))
  = map (fun d => Text.lower (Text.strip d)) dietary.
Proof.
  intros Hc Hne. destruct dietary as [|d rest]; [done|].
  unfold parse_list_field, dietary_str.
  destruct (Text.nonempty (join ", " (d :: rest))) eqn:E.
  - rewrite split_join by done. cbn [map]. f_equal.
    rewrite map_map. apply map_ext. intros x. by rewrite strip_blank.
  - assert (join ", " (d :: rest) = EmptyString) as [-> ->]%join_empty
      by (by destruct (join ", " (d :: rest))).
    done.
Qed.

Lemma posted_dietary_parsed_witness :
  parse_list_field (Some (dietary_str ["Vegetarian"; "Gluten-Free"]))
  = ["vegetarian"; "gluten-free"].
Proof.
  apply (posted_dietary_parsed ["Vegetarian"; "Gluten-Free"]).
  - repeat constructor.
  - discriminate.
Defined.

(** X12.  The flags the dashboard's filter derives from the stored text are
    exactly the non-empty checked values, lower-cased and trimmed: provided
    no value contains a comma or a semicolon. *)
Theorem posted_dietary_flags (dietary : list string)
    (goal favs dislikes : option string) (t : string) :
  Forall comma_free dietary ->
  Forall semicolon_free dietary ->
  t ∈ _load_dietary_flags (Some (posted_preferences dietary goal favs dislikes))
  <-> t <> EmptyString /\ exists d, d ∈ dietary /\ Text.lower (Text.strip d) = t.
Proof.
  intros Hc Hs. unfold _load_dietary_flags, posted_preferences.
  cbn [dietary_restrictions or_empty].
  rewrite elem_of_add_flags, flag_parts_posted by done.
  split.
  - intros [?|(Hne & p & Hp & <-)]; [set_solver|]. split; [done|].
    destruct dietary as [|d rest].
    + apply list_elem_of_singleton in Hp. by subst p.
    + apply elem_of_cons in Hp as [->|(x & -> & Hx)%list_elem_of_fmap].
      * exists d. split; [by left|]. by rewrite lower_strip.
      * exists x. split; [by right|]. by rewrite strip_blank, lower_strip.
  - intros (Hne & d & Hd & <-). right. split; [done|].
    destruct dietary as [|d0 rest]; [by apply elem_of_nil in Hd|].
    apply elem_of_cons in Hd as [->|Hd].
    + exists (Text.lower d0). split; [by left|]. by rewrite lower_strip.
    + exists (String.append " " (Text.lower d)). split.
      * right. apply list_elem_of_fmap. by exists d.
      * by rewrite strip_blank, lower_strip.
Qed.

Lemma posted_dietary_flags_witness :
  "gluten-free"
  ∈ _load_dietary_flags
      (Some (posted_preferences ["Vegetarian"; "Gluten-Free"] None None None)).
Proof.
  apply (posted_dietary_flags ["Vegetarian"; "Gluten-Free"] None None None).
  - repeat constructor.
  - repeat constructor.
  - split; [discriminate|]. exists "Gluten-Free". split; [|reflexivity].
    right. left.
Defined.

(** X13.  The list the preferences page gets back for its form is the
    lower-cased values with a blank in front of every value but the first:
    it is split on commas and not trimmed.  (Same provisos as X11.) *)
Theorem posted_dietary_shown (dietary : list string)
    (goal favs dislikes : option string) :
  Forall comma_free dietary ->
  dietary <> [EmptyString] ->
  preferences_dietary (Some (posted_preferences dietary goal favs dislikes))
  = match dietary with
    | [] => []
    | d :: rest =>
        Text.lower d :: map (fun x => String.append " " (Text.lower x)) rest
    end.
Proof.
  intros Hc Hne. destruct dietary as [|d rest]; [done|].
  unfold preferences_dietary, posted_preferences, dietary_str.
  cbn [dietary_restrictions].
  destruct (Text.nonempty (join ", " (d :: rest))) eqn:E.
  - rewrite lower_join. cbn [map]. rewrite split_join.
    + by rewrite map_map.
    + by apply (comma_free_lower_all (d :: rest)).
  - assert (join ", " (d :: rest) = EmptyString) as [-> ->]%join_empty
      by (by destruct (join ", " (d :: rest))).
    done.
Qed.

Lemma posted_dietary_shown_witness :
  preferences_dietary
    (Some (posted_preferences ["Vegetarian"; "Vegan"] None None None))
  = ["vegetarian"; " vegan"].
Proof.
  apply (posted_dietary_shown ["Vegetarian"; "Vegan"] None None None).
  - repeat constructor.
  - discriminate.
Defined.

(** ** Scraper *)

Section ScrapeFacts.
Import Text.

Lemma lower_upper_char c : lower_char (upper_char c) = lower_char c.
Proof. destruct c as [[] [] [] [] [] [] [] []]; reflexivity. Qed.

Lemma lower_title_from b s : lower (title_from b s) = lower s.
Proof.
  revert b. induction s as [|c r IH]; intros b; simpl; [done|].
  rewrite IH. by destruct b; rewrite ?lower_char_idem, ?lower_upper_char.
Qed.

Lemma lower_title s : lower (title s) = lower s.
Proof. apply lower_title_from. Qed.

Lemma title_nonempty s : nonempty (title s) = nonempty s.
Proof. by destruct s. Qed.

Lemma starts_with_append w s t :
  starts_with w s = true -> starts_with w (String.append s t) = true.
Proof.
  revert s. induction w as [|a w IH]; intros [|b s]; simpl; try done.
  intros [-> Hw]%andb_true_iff. by apply IH.
Qed.

Lemma detail_url_absolute href : starts_with "http" (detail_url href) = true.
Proof.
  unfold detail_url. destruct (starts_with "http" href) eqn:E; [done|].
  destruct (starts_with "/" href); by apply starts_with_append.
Qed.


Lemma parse_showreport_elem links name url :
  (name, url) ∈ parse_showreport links
  <-> exists href text,
        (href, text) ∈ links /\ text <> EmptyString
        /\ str_in "menudetail.aspx" (lower href) = true
        /\ name = title text /\ url = detail_url href.
Proof.
  induction links as [|[href text] rest IH]; cbn [parse_showreport].
  - split; [by intros ?%elem_of_nil|]. intros (? & ? & ?%elem_of_nil & _). done.
  - destruct (nonempty text) eqn:Et; cbn [negb];
      [destruct (str_in "menudetail.aspx" (lower href)) eqn:Eh; cbn [negb]|];
      rewrite ?elem_of_cons, IH; setoid_rewrite elem_of_cons.
    + apply nonempty_true in Et. split.
      * intros [E|(h & t & ? & ?)]; [|exists h, t; tauto].
        injection E as -> ->. exists href, text. tauto.
      * intros (h & t & [E|?] & ?); [|right; exists h, t; tauto].
        injection E as -> ->. left. f_equal; tauto.
    + split; intros (h & t & Hin & Ht & Hh & ?).
      * exists h, t. tauto.
      * destruct Hin as [E|?]; [|exists h, t; tauto].
        injection E as -> ->. congruence.
    + split; intros (h & t & Hin & Ht & ?).
      * exists h, t. tauto.
      * destruct Hin as [E|?]; [|exists h, t; tauto].
        injection E as -> ->. by destruct text.
Qed.

Lemma is_digit_value c : (0 <= digit_value c)%Z.
Proof. unfold digit_value. lia. Qed.

Lemma digits_value_nonneg acc ds : (0 <= acc)%Z -> (0 <= digits_value acc ds)%Z.
Proof.
  revert acc. induction ds as [|c r IH]; intros acc Hacc; simpl; [done|].
  apply IH. pose proof (is_digit_value c). lia.
Qed.

Lemma decimal_value_nonneg whole frac : (0 <= decimal_value whole frac)%Q.
Proof.
  unfold decimal_value.
  assert (Hi : forall z, (0 <= z)%Z -> (0 <= inject_Z z)%Q).
  { intros z Hz. change 0%Q with (inject_Z 0). by rewrite <- Zle_Qle. }
  change 0%Q with (0 + 0)%Q. apply Qplus_le_compat.
  - apply Hi, digits_value_nonneg. lia.
  - apply Qle_shift_div_l.
    + change 0%Q with (inject_Z 0). rewrite <- Zlt_Qlt. lia.
    + rewrite Qmult_0_l. apply Hi, digits_value_nonneg. lia.
Qed.

Lemma span_digits_digits s : str_forall is_digit (fst (span_digits s)) = true.
Proof.
  induction s as [|c r IH]; simpl; [done|].
  destruct (is_digit c) eqn:E; [|done].
  destruct (span_digits r) as [ds rest]. simpl in *. by rewrite E.
Qed.

Lemma match_number_digits c r :
  is_digit c = true ->
  nonempty (fst (match_number (String c r))) = true
  /\ str_forall is_digit (fst (match_number (String c r))) = true
  /\ str_forall is_digit (snd (match_number (String c r))) = true.
Proof.
  intros Hc. unfold match_number.
  pose proof (span_digits_digits (String c r)) as Hw.
  assert (Hn : nonempty (fst (span_digits (String c r))) = true).
  { simpl. rewrite Hc. by destruct (span_digits r). }
  destruct (span_digits (String c r)) as [whole rest]. simpl in Hw, Hn.
  destruct rest as [|d rest']; [done|].
  destruct (Ascii.eqb d "."); [|done].
  pose proof (span_digits_digits rest') as Hf.
  destruct (span_digits rest') as [frac rest'']. simpl in Hf.
  by destruct (nonempty frac).
Qed.

Lemma search_number_none text :
  search_number text = None <-> str_forall (fun c => negb (is_digit c)) text = true.
Proof.
  induction text as [|c r IH]; simpl; [done|].
  destruct (is_digit c); simpl; [split; discriminate|done].
Qed.

Lemma search_number_digits text whole frac :
  search_number text = Some (whole, frac) ->
  nonempty whole = true
  /\ str_forall is_digit whole = true /\ str_forall is_digit frac = true.
Proof.
  induction text as [|c r IH]; simpl; [done|].
  destruct (is_digit c) eqn:E; [|done].
  intros Hm. pose proof (match_number_digits c r E) as Hd.
  injection Hm as Hm. rewrite Hm in Hd. exact Hd.
Qed.

End ScrapeFacts.

(** X14.  The items read off a menu page are exactly the links with a
    non-empty text whose address contains "menudetail.aspx" in any letter
    case, named by the title-cased text; every address returned is
    absolute and no name is empty. *)
Theorem parse_showreport_items (links : list (string * string)) (name url : string) :
  ((name, url) ∈ parse_showreport links
   <-> exists href text,
         (href, text) ∈ links /\ text <> EmptyString
         /\ Text.str_in "menudetail.aspx" (Text.lower href) = true
         /\ name = title text /\ url = detail_url href)
  /\ ((name, url) ∈ parse_showreport links ->
      Text.starts_with "http" url = true /\ name <> EmptyString).
Proof.
  split; [apply parse_showreport_elem|].
  intros (href & text & _ & Ht & _ & -> & ->)%parse_showreport_elem.
  split; [apply detail_url_absolute|].
  apply nonempty_true. rewrite title_nonempty. by apply nonempty_true.
Qed.

Lemma parse_showreport_items_witness :
  Text.starts_with "http"
    "https://www.foodpro.huds.harvard.edu/foodpro/MenuDetail.aspx?id=7" = true
  /\ "Grilled Chicken" <> EmptyString.
Proof.
  apply (proj2 (parse_showreport_items
                  [("longmenu.aspx", "Back"); ("MenuDetail.aspx?id=7", "grilled CHICKEN")]
                  "Grilled Chicken"
                  "https://www.foodpro.huds.harvard.edu/foodpro/MenuDetail.aspx?id=7")).
  vm_compute. left.
Defined.

(** X15.  The title-casing of scraped names is cosmetic: a row named by the
    title-cased text gets the category, the filter's verdict and the score
    (in any arithmetic) of the row named by the text itself. *)
Theorem title_is_cosmetic A `{Number A} (item : menu_item A) (text : string)
    (prefs : option user_preferences) (dietary_flags : gset string) :
  infer_category (Some (title text)) = infer_category (Some text)
  /\ _violates_dietary_restrictions (with_name (Some (title text)) item) dietary_flags
     = _violates_dietary_restrictions (with_name (Some text) item) dietary_flags
  /\ score_menu_item (with_name (Some (title text)) item) prefs
     = score_menu_item (with_name (Some text) item) prefs.
Proof.
  split; [|split].
  - unfold infer_category. cbn [or_empty]. by rewrite lower_title.
  - unfold _violates_dietary_restrictions, blob, with_name.
    cbn [mi_name mi_tags or_empty]. by rewrite lower_title.
  - unfold score_menu_item, with_name. destruct prefs as [p|]; [|done].
    cbn [mi_name mi_tags mi_calories mi_protein or_empty]. by rewrite lower_title.
Qed.

Lemma tag_penalty_untagged flag amount dietary :
  tag_penalty flag amount dietary []
  = if decide (flag ∈ dietary) then (- amount)%Q else 0%Q.
Proof.
  unfold tag_penalty. cbn [mem existsb negb]. rewrite andb_true_r.
  destruct (mem flag dietary) eqn:E; case_decide as Hd; try done.
  - apply mem_spec in E. done.
  - apply mem_spec in Hd. congruence.
Qed.


(** X17.  The number read off a nutrition row is absent exactly when the
    row text holds no digit; otherwise it is the first run of digits, with
    the digits behind a directly following dot: a text that [float] always
    accepts, and a value that is never negative. *)
Theorem row_number_read (row_text : string) :
  (row_number row_text = None
   <-> str_forall (fun c => negb (is_digit c)) row_text = true)
  /\ (forall whole frac,
        search_number row_text = Some (whole, frac) ->
        Text.nonempty whole = true
        /\ str_forall is_digit whole = true /\ str_forall is_digit frac = true)
  /\ (forall q, row_number row_text = Some q -> (0 <= q)%Q).
Proof.
  split; [|split].
  - rewrite <- search_number_none. unfold row_number.
    destruct (search_number row_text) as [[whole frac]|]; split; done.
  - apply search_number_digits.
  - unfold row_number. destruct (search_number row_text) as [[whole frac]|]; [|done].
    intros q [= <-]. apply decimal_value_nonneg.
Qed.

Lemma row_number_read_witness :
  (0 <= 1.5)%Q.
Proof.
  apply (proj2 (proj2 (row_number_read "Total Fat 1.5g 2%")) 1.5%Q).
  reflexivity.
Defined.

(** ** Stored tables: list facts *)

Section TableFacts.
Context {R : Type}.
Implicit Types (l : list R) (P : R -> bool).

Lemma filter_map_commute P (f : R -> R) l :
  (forall r, P (f r) = P r) ->
  List.filter P (map f l) = map f (List.filter P l).
Proof.
  intros Hf. induction l as [|r l IH]; simpl; [done|].
  rewrite Hf. destruct (P r); simpl; by rewrite IH.
Qed.

Lemma filter_map_untouched P (f : R -> R) l :
  (forall r, P (f r) = P r) -> (forall r, P r = true -> f r = r) ->
  List.filter P (map f l) = List.filter P l.
Proof.
  intros Hf Hid. rewrite filter_map_commute by done.
  induction l as [|r l IH]; simpl; [done|].
  destruct (P r) eqn:E; simpl; [|done]. by rewrite IH, Hid.
Qed.

Lemma filter_filter_untouched P Q l :
  (forall r, P r = true -> Q r = true) ->
  List.filter P (List.filter Q l) = List.filter P l.
Proof.
  intros HPQ. induction l as [|r l IH]; simpl; [done|].
  destruct (Q r) eqn:EQ; simpl; destruct (P r) eqn:EP; simpl; rewrite ?IH; try done.
  apply HPQ in EP. congruence.
Qed.

Lemma filter_filter_none P Q l :
  (forall r, P r = true -> Q r = false) ->
  List.filter P (List.filter Q l) = [].
Proof.
  intros HPQ. induction l as [|r l IH]; simpl; [done|].
  destruct (Q r) eqn:EQ; simpl; [|done].
  destruct (P r) eqn:EP; [|done]. apply HPQ in EP. congruence.
Qed.

Lemma filter_nil_iff P l : List.filter P l = [] <-> forall r, r ∈ l -> P r = false.
Proof.
  induction l as [|r l IH]; simpl.
  - split; [by intros _ r ?%elem_of_nil|done].
  - destruct (P r) eqn:E.
    + split; [done|]. intros Hall. specialize (Hall r (list_elem_of_here _ _)). congruence.
    + rewrite IH. split.
      * intros Hall x [->|Hx]%elem_of_cons; auto.
      * intros Hall x Hx. apply Hall. by right.
Qed.

Lemma max_id_bound (ids : list Z) k : k ∈ ids -> (k <= max_id ids)%Z.
Proof.
  induction ids as [|i ids IH]; simpl; [by intros ?%elem_of_nil|].
  intros [->|Hk]%elem_of_cons; [lia|]. specialize (IH Hk). lia.
Qed.

(** The id of an inserted row is new. *)
Lemma sql_insert_fresh (id_of : R -> Z) (t : table R) :
  (1 + Z.max (seq t) (max_id (map id_of (rows t))))%Z ∉ map id_of (rows t).
Proof. intros Hin%max_id_bound. lia. Qed.

End TableFacts.

(** ** Preferences *)

Lemma reference_ok_elem fk (ids : list Z) k : k ∈ ids -> reference_ok fk ids k = true.
Proof.
  intros Hk. unfold reference_ok. rewrite (bool_decide_eq_true_2 _ Hk).
  apply orb_true_r.
Qed.

Lemma preferences_post_completes A fk (db : database A) user_id dietary
    goal favs dislikes height_cm weight_kg :
  user_id ∈ t_users db ->
  exists db', preferences_post fk db user_id dietary goal favs dislikes
                height_cm weight_kg = Some db'.
Proof.
  intros Hu. unfold preferences_post.
  destruct (sql_select _ _); [|by eexists].
  rewrite reference_ok_elem by done. by eexists.
Qed.

(** X18.  The POST of the preferences form completes for a user of the
    users table.  Afterwards the row the dashboard loads for the user
    carries exactly the posted fields, every other user's row is as before,
    and the user has as many rows as before, or one if there was none: no
    second row is ever created. *)
Theorem preferences_post_loaded A (enforce_foreign_keys : bool)
    (db : database A) (user_id : Z) (dietary : list string)
    (goal favs dislikes height_cm weight_kg : option string) :
  (user_id ∈ t_users db ->
   exists db', preferences_post enforce_foreign_keys db user_id dietary goal favs
                 dislikes height_cm weight_kg = Some db')
  /\ forall db',
       preferences_post enforce_foreign_keys db user_id dietary goal favs dislikes
         height_cm weight_kg = Some db' ->
       load_preferences db' user_id
       = Some (posted_preferences dietary goal favs dislikes)
       /\ (forall other, other <> user_id ->
             load_preferences db' other = load_preferences db other)
       /\ length (sql_select (fun r => (up_user_id r =? user_id)%Z)
                    (t_user_preferences db'))
          = Nat.max 1
              (length (sql_select (fun r => (up_user_id r =? user_id)%Z)
                         (t_user_preferences db))).
Proof.
  split; [apply preferences_post_completes|]. intros db'.
  unfold preferences_post, load_preferences, sql_select.
  set (mine := fun r => (up_user_id r =? user_id)%Z).
  set (prefs := posted_preferences dietary goal favs dislikes).
  set (upd := fun r => if mine r
                       then PreferencesRow (up_id r) (up_user_id r) prefs
                              (or_none height_cm) (or_none weight_kg)
                       else r).
  assert (Hother : forall other, other <> user_id ->
            List.filter (fun r => (up_user_id r =? other)%Z)
              (map upd (rows (t_user_preferences db)))
            = List.filter (fun r => (up_user_id r =? other)%Z)
                (rows (t_user_preferences db))).
  { intros other Hne. apply filter_map_untouched.
    - intros r. unfold upd. by destruct (mine r).
    - intros r Hr. unfold upd, mine.
      destruct (up_user_id r =? user_id)%Z eqn:E; [|done]. lia. }
  destruct (List.filter mine (rows (t_user_preferences db))) as [|r0 rest] eqn:Esel.
  - destruct (reference_ok enforce_foreign_keys (t_users db) user_id); [|done].
    intros [= <-]. cbn [t_user_preferences set_user_preferences sql_insert rows].
    split; [|split].
    + rewrite List.filter_app, Esel. simpl. unfold mine. by rewrite Z.eqb_refl.
    + intros other Hne. rewrite List.filter_app. simpl.
      destruct (user_id =? other)%Z eqn:E; [lia|]. by rewrite app_nil_r.
    + rewrite List.filter_app. fold mine. rewrite Esel. simpl.
      unfold mine. by rewrite Z.eqb_refl.
  - intros [= <-]. cbn [t_user_preferences set_user_preferences sql_update rows].
    fold upd.
    assert (Hsel : List.filter mine (map upd (rows (t_user_preferences db)))
                   = map upd (r0 :: rest)).
    { rewrite <- Esel. apply filter_map_commute.
      intros r. unfold upd. destruct (mine r) eqn:E; [|done]. exact E. }
    assert (Hr0 : mine r0 = true).
    { assert (Hin : r0 ∈ List.filter mine (rows (t_user_preferences db)))
        by (rewrite Esel; by left).
      apply list_elem_of_In, filter_In in Hin. tauto. }
    split; [|split].
    + rewrite Hsel. simpl. unfold upd. by rewrite Hr0.
    + intros other Hne. by rewrite Hother.
    + rewrite Hsel, length_map. simpl. lia.
Qed.

Lemma preferences_post_loaded_witness :
  let db := Database (A:=Q) [7%Z] [] (Table [] 0) (Table [] 0) (Table [] 0)
              (Table [] 0) (Table [] 0) in
  exists db',
    preferences_post true db 7 ["Vegan"] (Some "maintain") None None None None = Some db'
    /\ load_preferences db' 7
       = Some (posted_preferences ["Vegan"] (Some "maintain") None None).
Proof.
  intros db. eexists. split; [reflexivity|].
  eapply (proj2 (preferences_post_loaded Q true db 7 ["Vegan"] (Some "maintain")
                   None None None None)).
  reflexivity.
Defined.

(** ** Logged meals and the daily totals *)

Section MealFacts.
Context {A : Type} `{Number A}.

Lemma totals_rows_untouched (db db' : database A) u d :
  t_menu_items db' = t_menu_items db ->
  sql_select (fun um => (um_user_id um =? u)%Z && String.eqb (um_date um) d)
    (t_user_meals db')
  = sql_select (fun um => (um_user_id um =? u)%Z && String.eqb (um_date um) d)
      (t_user_meals db) ->
  totals_rows db' u d = totals_rows db u d.
Proof. unfold totals_rows. by intros -> ->. Qed.

Lemma other_day u d user day (r : user_meals_row) :
  u <> user \/ d <> day ->
  (um_user_id r =? u)%Z && String.eqb (um_date r) d = true ->
  (um_user_id r =? user)%Z && String.eqb (um_date r) day = false.
Proof.
  intros Hne [Hu Hd]%andb_true_iff. apply Z.eqb_eq in Hu. apply String.eqb_eq in Hd.
  apply andb_false_iff. rewrite Z.eqb_neq, String.eqb_neq.
  destruct Hne; [left|right]; congruence.
Qed.

End MealFacts.

(** X19.  After a reset of the intake the user's totals for that date are
    all zero (in any arithmetic), while the logged rows behind the totals
    of every other user or date are the same as before. *)
Theorem reset_intake_clears A `{Number A} (db : database A) (user_id : Z)
    (date : option string) (today : string) :
  let day := or_default date today in
  let db' := reset_intake db user_id date today in
  dashboard_totals db' user_id day
  = {| calories := lit 0; protein := lit 0; carbs := lit 0; fat := lit 0 |}
  /\ forall u d, u <> user_id \/ d <> day -> totals_rows db' u d = totals_rows db u d.
Proof.
  intros day db'. split.
  - unfold dashboard_totals, totals_rows, db', reset_intake, sql_select, sql_delete.
    cbn [t_user_meals set_user_meals rows]. fold day.
    rewrite filter_filter_none; [done|].
    intros r ->. done.
  - intros u d Hne. apply totals_rows_untouched; [done|].
    unfold db', reset_intake, sql_select, sql_delete.
    cbn [t_user_meals set_user_meals rows]. fold day.
    apply filter_filter_untouched. intros r Hr.
    by rewrite (other_day u d user_id day r Hne Hr).
Qed.

(** X20.  Removing a logged meal only ever removes rows of the user who
    asks: no row is added, no row of another user disappears, and the rows
    behind every other user's totals are the same as before. *)
Theorem remove_meal_own A (db : database A) (user_id : Z) (user_meal_id : option Z) :
  let db' := remove_meal db user_id user_meal_id in
  (forall r, r ∈ rows (t_user_meals db') -> r ∈ rows (t_user_meals db))
  /\ (forall r, r ∈ rows (t_user_meals db) -> um_user_id r <> user_id ->
        r ∈ rows (t_user_meals db'))
  /\ (forall other d, other <> user_id -> totals_rows db' other d = totals_rows db other d).
Proof.
  intros db'. subst db'. unfold remove_meal.
  destruct user_meal_id as [id|]; [|done].
  cbn [t_user_meals set_user_meals sql_delete rows]. split; [|split].
  - intros r Hr%list_elem_of_In%filter_In. apply list_elem_of_In. tauto.
  - intros r Hr Hne. apply list_elem_of_In, filter_In. split; [by apply list_elem_of_In|].
    apply negb_true_iff, andb_false_iff. right. by apply Z.eqb_neq.
  - intros other d Hne. apply totals_rows_untouched; [done|].
    unfold sql_select, sql_delete. cbn [rows].
    apply filter_filter_untouched. intros r [Hu _]%andb_true_iff.
    apply Z.eqb_eq in Hu. apply negb_true_iff, andb_false_iff. right.
    apply Z.eqb_neq. congruence.
Qed.



(** ** Item ratings *)

Section RatingFacts.
Context {A : Type}.
Implicit Types (db : database A) (l : list item_feedback_row).

Lemma filter_map_untouched_in {R} (P : R -> bool) (f : R -> R) (l : list R) :
  (forall r, P (f r) = P r) -> (forall r, r ∈ l -> P r = true -> f r = r) ->
  List.filter P (map f l) = List.filter P l.
Proof.
  intros Hf. induction l as [|r l IH]; intros Hid; simpl; [done|].
  rewrite Hf, IH by (intros x Hx; apply Hid; by right).
  destruct (P r) eqn:E; [|done]. by rewrite (Hid r (list_elem_of_here _ _) E).
Qed.

Lemma NoDup_fmap_elem {R K} (f : R -> K) (l : list R) x y :
  NoDup (map f l) -> x ∈ l -> y ∈ l -> f x = f y -> x = y.
Proof.
  induction l as [|r l IH]; simpl; [by intros _ ?%elem_of_nil|].
  intros [Hr Hl]%NoDup_cons [->|Hx]%elem_of_cons [->|Hy]%elem_of_cons E; auto.
  - destruct Hr. rewrite E. apply list_elem_of_fmap. by exists y.
  - destruct Hr. rewrite <- E. apply list_elem_of_fmap. by exists x.
Qed.

Lemma ratings_fold_lookup l (ratings : gmap Z Z) k v :
  NoDup (map if_menu_item_id l) ->
  fold_left (fun m row => <[ if_menu_item_id row := if_rating row ]> m) l ratings !! k
  = Some v
  <-> (exists r, r ∈ l /\ if_menu_item_id r = k /\ if_rating r = v)
      \/ ((k ∉ map if_menu_item_id l) /\ ratings !! k = Some v).
Proof.
  revert ratings. induction l as [|r l IH]; intros ratings Hnd; simpl.
  - split; [intros ?; right; split; [by intros ?%elem_of_nil|done]|].
    intros [(? & ?%elem_of_nil & _)|[_ ?]]; done.
  - apply NoDup_cons in Hnd as [Hr Hl]. rewrite (IH _ Hl).
    destruct (decide (if_menu_item_id r = k)) as [<-|Hne].
    + rewrite lookup_insert_eq. split.
      * intros [(x & Hx & Ek & _)|[_ [= <-]]].
        -- destruct Hr. rewrite <- Ek. apply list_elem_of_fmap. by exists x.
        -- left. exists r. split; [by left|done].
      * intros [(x & [->|Hx]%elem_of_cons & Ek & Ev)|[Hk _]].
        -- right. split; [done|by rewrite Ev].
        -- destruct Hr. rewrite <- Ek. apply list_elem_of_fmap. by exists x.
        -- destruct Hk. by left.
    + rewrite lookup_insert_ne by done. split.
      * intros [(x & Hx & Ek & Ev)|[Hk Hv]].
        -- left. exists x. split; [by right|done].
        -- right. split; [|done]. by intros [?|?]%elem_of_cons.
      * intros [(x & [->|Hx]%elem_of_cons & Ek & Ev)|[Hk Hv]]; [done| |].
        -- left. by exists x.
        -- right. split; [|done]. intros Hin. apply Hk. by right.
Qed.

Lemma user_keys_NoDup l user :
  NoDup (map (fun r => (if_user_id r, if_menu_item_id r)) l) ->
  NoDup (map if_menu_item_id (List.filter (fun r => (if_user_id r =? user)%Z) l)).
Proof.
  induction l as [|r l IH]; simpl; [constructor|].
  intros [Hr Hl]%NoDup_cons. destruct (if_user_id r =? user)%Z eqn:E; [|by apply IH].
  simpl. apply NoDup_cons. split; [|by apply IH].
  intros (x & Ex & Hx)%list_elem_of_fmap. apply list_elem_of_In, filter_In in Hx as [Hx Eu].
  apply Hr, list_elem_of_fmap. exists x. split; [|by apply list_elem_of_In].
  apply Z.eqb_eq in E, Eu. congruence.
Qed.

(** The dashboard's dictionary holds a user's rating of an item. *)
Lemma dashboard_ratings_lookup db user k v :
  ratings_consistent db ->
  dashboard_ratings db user !! k = Some v
  <-> exists r, r ∈ rows (t_item_feedback db)
                /\ if_user_id r = user /\ if_menu_item_id r = k /\ if_rating r = v.
Proof.
  intros (_ & Hpairs & _). unfold dashboard_ratings, sql_select.
  rewrite ratings_fold_lookup by (by apply user_keys_NoDup).
  rewrite lookup_empty. split.
  - intros [(r & Hr & ? & ?)|[_ ?]]; [|done].
    apply list_elem_of_In, filter_In in Hr as [Hr Eu%Z.eqb_eq].
    exists r. split; [by apply list_elem_of_In|done].
  - intros (r & Hr & Eu & ? & ?). left. exists r. split; [|done].
    apply list_elem_of_In, filter_In. split; [by apply list_elem_of_In|by apply Z.eqb_eq].
Qed.

Lemma item_feedback_cases fk int db user menu_item_id rating_str db' :
  item_feedback fk int db user menu_item_id rating_str = Some db' ->
  db' = db
  \/ exists item text rating,
       menu_item_id = Some item /\ rating_str = Some text /\ text <> EmptyString
       /\ int text = Some rating /\ (1 <= rating <= 5)%Z
       /\ rating_written db user item rating db'.
Proof.
  unfold item_feedback. destruct menu_item_id as [item|]; [|intros [= <-]; by left].
  destruct rating_str as [text|]; simpl; [|intros [= <-]; by left].
  destruct (Text.nonempty text) eqn:Et; [|intros [= <-]; by left].
  destruct (int text) as [rating|] eqn:Ei; [|intros [= <-]; by left].
  destruct ((rating <? 1)%Z || (rating >? 5)%Z) eqn:Er; [intros [= <-]; by left|].
  apply orb_false_iff in Er as [E1 E2].
  intros Hdb. right. exists item, text, rating.
  split; [done|]. split; [done|]. split; [by apply nonempty_true|].
  split; [done|]. split; [lia|].
  destruct (sql_select _ _) as [|existing rest] eqn:Esel.
  - destruct (_ && _) in Hdb; [|done]. injection Hdb as <-.
    apply rating_inserted. intros r Hr [Hu Hi].
    unfold sql_select in Esel.
    pose proof (proj1 (filter_nil_iff _ _) Esel r Hr) as Hf. simpl in Hf.
    apply andb_false_iff in Hf. rewrite !Z.eqb_neq in Hf. tauto.
  - injection Hdb as <-.
    assert (Hin : existing ∈ sql_select
              (fun r => (if_user_id r =? user)%Z && (if_menu_item_id r =? item)%Z)
              (t_item_feedback db)) by (rewrite Esel; by left).
    apply list_elem_of_In, filter_In in Hin as [Hin [Hu Hi]%andb_true_iff].
    apply rating_updated; [by apply list_elem_of_In|by apply Z.eqb_eq..].
Qed.

Lemma rating_written_consistent db user item rating db' :
  (1 <= rating <= 5)%Z ->
  ratings_consistent db -> rating_written db user item rating db' ->
  ratings_consistent db'.
Proof.
  intros Hr (Hrange & Hpairs & Hids) [existing Hin Hu Hi|Hnone];
    unfold ratings_consistent; cbn [t_item_feedback set_item_feedback sql_update sql_insert rows].
  - split; [|split].
    + apply Forall_fmap. eapply Forall_impl; [exact Hrange|].
      intros r Hrr. simpl. by destruct (if_id r =? if_id existing)%Z.
    + rewrite map_map. erewrite map_ext; [exact Hpairs|].
      intros r. by destruct (if_id r =? if_id existing)%Z.
    + rewrite map_map. erewrite map_ext; [exact Hids|].
      intros r. by destruct (if_id r =? if_id existing)%Z.
  - split; [|split].
    + apply Forall_app. split; [done|]. constructor; [simpl; lia|constructor].
    + rewrite map_app. simpl. apply NoDup_app. split; [done|].
      split; [|apply NoDup_singleton].
      intros p (r & -> & Hin)%list_elem_of_fmap [= Hu Hi]%list_elem_of_singleton.
      by apply (Hnone r Hin).
    + rewrite map_app. simpl. apply NoDup_app. split; [done|].
      split; [|apply NoDup_singleton].
      intros k Hk ->%list_elem_of_singleton. by apply sql_insert_fresh in Hk.
Qed.

Lemma rating_written_lookup db user item rating db' :
  (1 <= rating <= 5)%Z ->
  ratings_consistent db -> rating_written db user item rating db' ->
  dashboard_ratings db' user !! item = Some rating
  /\ (forall item', item' <> item ->
        dashboard_ratings db' user !! item' = dashboard_ratings db user !! item')
  /\ (forall other, other <> user -> dashboard_ratings db' other = dashboard_ratings db other).
Proof.
  intros Hr Hdb Hw.
  pose proof (rating_written_consistent _ _ _ _ _ Hr Hdb Hw) as Hdb'.
  destruct Hdb as (Hrange & Hpairs & Hids).
  assert (Hdb : ratings_consistent db) by done.
  destruct Hw as [existing Hin Hu Hi|Hnone].
  - set (upd := fun r => if (if_id r =? if_id existing)%Z then set_rating rating r else r).
    assert (Hsame : forall r, r ∈ rows (t_item_feedback db) ->
                      (if_id r =? if_id existing)%Z = true -> r = existing).
    { intros r Hrin E%Z.eqb_eq. by apply (NoDup_fmap_elem if_id _ _ _ Hids). }
    split; [|split].
    + apply dashboard_ratings_lookup; [done|].
      exists (set_rating rating existing).
      cbn [t_item_feedback set_item_feedback sql_update rows].
      split; [|done]. apply list_elem_of_fmap. exists existing.
      split; [|done]. by rewrite Z.eqb_refl.
    + intros item' Hne. apply option_eq. intros v.
      rewrite !dashboard_ratings_lookup by done.
      cbn [t_item_feedback set_item_feedback sql_update rows]. split.
      * intros (r' & (r & -> & Hrin)%list_elem_of_fmap & Eu & Ek & Ev).
        destruct (if_id r =? if_id existing)%Z eqn:E.
        -- apply Hsame in E; [|done]. subst r. simpl in Ek. congruence.
        -- by exists r.
      * intros (r & Hrin & Eu & Ek & Ev). exists r. split; [|done].
        apply list_elem_of_fmap. exists r. split; [|done].
        destruct (if_id r =? if_id existing)%Z eqn:E; [|done].
        apply Hsame in E; [|done]. congruence.
    + intros other Hne. unfold dashboard_ratings, sql_select.
      cbn [t_item_feedback set_item_feedback sql_update rows].
      f_equal. apply filter_map_untouched_in.
      * intros r. by destruct (if_id r =? if_id existing)%Z.
      * intros r Hrin Eo%Z.eqb_eq.
        destruct (if_id r =? if_id existing)%Z eqn:E; [|done].
        apply Hsame in E; [|done]. congruence.
  - split; [|split].
    + apply dashboard_ratings_lookup; [done|].
      cbn [t_item_feedback set_item_feedback sql_insert rows].
      eexists. split; [apply elem_of_app; right; by left|done].
    + intros item' Hne. apply option_eq. intros v.
      rewrite !dashboard_ratings_lookup by done.
      cbn [t_item_feedback set_item_feedback sql_insert rows]. split.
      * intros (r & [Hrin|Hnew%list_elem_of_singleton]%elem_of_app & Eu & Ek & Ev).
        -- by exists r.
        -- subst r. simpl in Ek. congruence.
      * intros (r & Hrin & ?). exists r. split; [|done]. apply elem_of_app. by left.
    + intros other Hne. unfold dashboard_ratings, sql_select.
      cbn [t_item_feedback set_item_feedback sql_insert rows].
      rewrite List.filter_app. simpl.
      destruct (user =? other)%Z eqn:E; [lia|]. by rewrite app_nil_r.
Qed.

End RatingFacts.

Lemma item_feedback_valid A fk int (db : database A) user item text rating :
  user ∈ t_users db -> item ∈ map mi_id (t_menu_items db) ->
  text <> EmptyString -> int text = Some rating -> (1 <= rating <= 5)%Z ->
  exists db', item_feedback fk int db user (Some item) (Some text) = Some db'
              /\ rating_written db user item rating db'.
Proof.
  intros Hu Hi Ht%nonempty_true Hint Hr. unfold item_feedback. simpl.
  rewrite Ht, Hint.
  replace ((rating <? 1)%Z || (rating >? 5)%Z) with false
    by (symmetry; apply orb_false_iff; lia).
  destruct (sql_select _ _) as [|existing rest] eqn:Esel.
  - rewrite !reference_ok_elem by done. eexists. split; [reflexivity|].
    apply rating_inserted. intros r Hrin [Eu Ei].
    pose proof (proj1 (filter_nil_iff _ _) Esel r Hrin) as Hf. simpl in Hf.
    apply andb_false_iff in Hf. rewrite !Z.eqb_neq in Hf. tauto.
  - eexists. split; [reflexivity|].
    assert (Hin : existing ∈ sql_select
              (fun r => (if_user_id r =? user)%Z && (if_menu_item_id r =? item)%Z)
              (t_item_feedback db)) by (rewrite Esel; by left).
    apply list_elem_of_In, filter_In in Hin as [Hin [Eu Ei]%andb_true_iff].
    apply rating_updated; [by apply list_elem_of_In|by apply Z.eqb_eq..].
Qed.

(** X22.  A rating request never spoils the ratings table: if every stored
    rating is between 1 and 5, no user has two ratings of one item and the
    ids are distinct, the same holds after any completed request, whatever
    [int] makes of the rating text; a request without an item, without a
    rating text, with a text [int] rejects or with a number outside 1..5
    changes nothing. *)
Theorem item_feedback_consistent A (enforce_foreign_keys : bool)
    (int : string -> option Z) (db db' : database A) (user_id : Z)
    (menu_item_id : option Z) (rating_str : option string) :
  ratings_consistent db ->
  item_feedback enforce_foreign_keys int db user_id menu_item_id rating_str = Some db' ->
  ratings_consistent db'
  /\ (menu_item_id = None -> db' = db)
  /\ (or_none rating_str = None -> db' = db)
  /\ (forall text, rating_str = Some text -> int text = None -> db' = db)
  /\ (forall text rating, rating_str = Some text -> int text = Some rating ->
        (rating < 1 \/ 5 < rating)%Z -> db' = db).
Proof.
  intros Hdb Hreq. split.
  - apply item_feedback_cases in Hreq
      as [->|(item & text & rating & _ & _ & _ & _ & Hr & Hw)]; [done|].
    by apply (rating_written_consistent db user_id item rating).
  - revert Hreq. unfold item_feedback.
    destruct menu_item_id as [item|]; [|intros [= <-]; repeat split; done].
    destruct (or_none rating_str) as [text|] eqn:Et;
      [|intros [= <-]; repeat split; done].
    assert (rating_str = Some text) as ->.
    { destruct rating_str as [t|]; simpl in Et; [|done].
      destruct (Text.nonempty t); congruence. }
    destruct (int text) as [rating|] eqn:Ei; [|intros [= <-]; repeat split; done].
    destruct ((rating <? 1)%Z || (rating >? 5)%Z) eqn:Er;
      [intros [= <-]; repeat split; done|].
    apply orb_false_iff in Er as [E1 E2]. intros _.
    split; [done|]. split; [done|]. split.
    + intros t [= <-]. congruence.
    + intros t n [= <-] En Hout. assert (n = rating) by congruence. lia.
Qed.

Lemma item_feedback_consistent_witness :
  let int s := if String.eqb s "5" then Some 5%Z else None in
  let db := Database (A:=Q) [7%Z] [] (Table [] 0) (Table [] 0)
              (Table [ItemFeedback 1 7 3 4] 1) (Table [] 0) (Table [] 0) in
  exists db',
    item_feedback true int db 7 (Some 3%Z) (Some "5") = Some db'
    /\ ratings_consistent db'.
Proof.
  intros int db.
  assert (Hdb : ratings_consistent db).
  { split; [|split].
    - apply Forall_cons. split; [simpl; lia|constructor].
    - apply NoDup_singleton.
    - apply NoDup_singleton. }
  eexists. split; [reflexivity|].
  exact (proj1 (item_feedback_consistent Q true int db _ 7 (Some 3%Z) (Some "5")
                  Hdb eq_refl)).
Defined.

(** X23.  A valid rating is what the dashboard shows afterwards.  With a
    consistent table, an existing user and menu item, and a rating text
    that [int] reads as a number from 1 to 5, the request completes; the
    dashboard's ratings of the user then map the item to that number, the
    user's other ratings and every other user's ratings are as before. *)
Theorem item_feedback_recorded A (enforce_foreign_keys : bool)
    (int : string -> option Z) (db : database A) (user_id item : Z)
    (text : string) (rating : Z) :
  ratings_consistent db ->
  user_id ∈ t_users db -> item ∈ map mi_id (t_menu_items db) ->
  text <> EmptyString -> int text = Some rating -> (1 <= rating <= 5)%Z ->
  exists db',
    item_feedback enforce_foreign_keys int db user_id (Some item) (Some text) = Some db'
    /\ dashboard_ratings db' user_id !! item = Some rating
    /\ (forall item', item' <> item ->
          dashboard_ratings db' user_id !! item' = dashboard_ratings db user_id !! item')
    /\ (forall other, other <> user_id ->
          dashboard_ratings db' other = dashboard_ratings db other).
Proof.
  intros Hdb Hu Hi Ht Hint Hr.
  destruct (item_feedback_valid A enforce_foreign_keys int db user_id item text rating)
    as (db' & Hreq & Hw); try done.
  exists db'. split; [done|]. by apply rating_written_lookup.
Qed.

Lemma item_feedback_recorded_witness :
  let int s := if String.eqb s "5" then Some 5%Z else None in
  let db := Database (A:=Q) [7%Z; 8%Z]
              [MenuItem 3 (Some "Oatmeal") None None None None None None]
              (Table [] 0) (Table [] 0)
              (Table [ItemFeedback 1 7 3 2; ItemFeedback 2 8 3 4] 2)
              (Table [] 0) (Table [] 0) in
  exists db',
    item_feedback true int db 7 (Some 3%Z) (Some "5") = Some db'
    /\ dashboard_ratings db' 7 !! 3%Z = Some 5%Z
    /\ (forall item', item' <> 3%Z ->
          dashboard_ratings db' 7 !! item' = dashboard_ratings db 7 !! item')
    /\ (forall other, other <> 7%Z ->
          dashboard_ratings db' other = dashboard_ratings db other).
Proof.
  intros int db.
  apply (item_feedback_recorded Q true int db 7 3 "5" 5).
  - split; [|split].
    + apply Forall_cons. split; [simpl; lia|].
      apply Forall_cons. split; [simpl; lia|constructor].
    + apply NoDup_cons. split; [|apply NoDup_singleton].
      intros Hin%list_elem_of_singleton. discriminate Hin.
    + apply NoDup_cons. split; [|apply NoDup_singleton].
      intros Hin%list_elem_of_singleton. discriminate Hin.
  - left.
  - left.
  - discriminate.
  - reflexivity.
  - lia.
Defined.

(** ** Feedback wall *)

Section WallFacts.
Context {A : Type}.
Implicit Types (db : database A) (l : list feedback_likes_row).

Lemma like_of_spec user fid r :
  like_of user fid r = true <-> (fl_user_id r, fl_feedback_id r) = (user, fid).
Proof.
  unfold like_of. rewrite andb_true_iff, !Z.eqb_eq. split; [by intros [-> ->]|].
  by intros [= -> ->].
Qed.

Lemma like_of_new user fid id : like_of user fid (FeedbackLike id user fid) = true.
Proof. unfold like_of. simpl. by rewrite !Z.eqb_refl. Qed.

Lemma add_likes_id fid delta f : fb_id (add_likes fid delta f) = fb_id f.
Proof. unfold add_likes. by destruct (fb_id f =? fid)%Z. Qed.

Lemma add_likes_back fid delta (fs : list feedback_row) :
  map (add_likes fid (- delta)) (map (add_likes fid delta) fs) = fs.
Proof.
  rewrite map_map. rewrite <- (map_id fs) at 2. apply map_ext. intros f.
  unfold add_likes at 2. destruct (fb_id f =? fid)%Z eqn:E; unfold add_likes.
  - cbn [fb_id]. rewrite E. destruct f. simpl. f_equal. lia.
  - by rewrite E.
Qed.

Lemma pairs_filter_NoDup (P : feedback_likes_row -> bool) l :
  NoDup (map (fun r => (fl_user_id r, fl_feedback_id r)) l) ->
  NoDup (map (fun r => (fl_user_id r, fl_feedback_id r)) (List.filter P l)).
Proof.
  induction l as [|r l IH]; simpl; [done|].
  intros [Hr Hl]%NoDup_cons. destruct (P r); [|by apply IH].
  simpl. apply NoDup_cons. split; [|by apply IH].
  intros (x & E & Hx%list_elem_of_In%filter_In)%list_elem_of_fmap.
  apply Hr, list_elem_of_fmap. exists x. split; [done|]. apply list_elem_of_In. tauto.
Qed.

Lemma like_once user fid l :
  NoDup (map (fun r => (fl_user_id r, fl_feedback_id r)) l) ->
  length (List.filter (like_of user fid) l) <= 1.
Proof.
  induction l as [|r l IH]; simpl; [lia|].
  intros [Hr Hl]%NoDup_cons. specialize (IH Hl).
  destruct (like_of user fid r) eqn:E; [|lia]. simpl.
  destruct (List.filter (like_of user fid) l) as [|x rest] eqn:Ef; [simpl; lia|].
  exfalso. apply Hr, list_elem_of_fmap. exists x.
  assert (Hx : x ∈ List.filter (like_of user fid) l) by (rewrite Ef; by left).
  apply list_elem_of_In, filter_In in Hx as [Hx Ex].
  apply like_of_spec in E, Ex. split; [congruence|by apply list_elem_of_In].
Qed.

Lemma count_split (P Q : feedback_likes_row -> bool) l :
  (forall r, Q r = true -> P r = true) ->
  length (List.filter P l)
  = length (List.filter P (List.filter (fun r => negb (Q r)) l)) + length (List.filter Q l).
Proof.
  intros HQP. induction l as [|r l IH]; simpl; [done|].
  destruct (Q r) eqn:EQ; simpl.
  - rewrite (HQP r EQ). simpl. lia.
  - destruct (P r); simpl; lia.
Qed.

Lemma elem_of_liked_map db user f :
  f ∈ liked_map db user <-> (user, f) ∈ like_pairs db.
Proof.
  unfold liked_map, like_pairs, sql_select.
  rewrite elem_of_list_to_set, !list_elem_of_fmap. split.
  - intros (r & -> & Hr%list_elem_of_In%filter_In). destruct Hr as [Hr Eu%Z.eqb_eq].
    exists r. split; [by rewrite Eu|by apply list_elem_of_In].
  - intros (r & [= Eu Ef] & Hr). exists r. split; [done|].
    apply list_elem_of_In, filter_In. split; [by apply list_elem_of_In|].
    apply Z.eqb_eq. done.
Qed.

(** The two things a completed toggle does. *)
Lemma feedback_like_cases fk db user fid db' :
  feedback_like fk db user (Some fid) = Some db' ->
  (List.filter (like_of user fid) (rows (t_feedback_likes db)) = []
   /\ rows (t_feedback_likes db')
      = rows (t_feedback_likes db)
        ++ [FeedbackLike
              (1 + Z.max (seq (t_feedback_likes db))
                     (max_id (map fl_id (rows (t_feedback_likes db)))))
              user fid]
   /\ rows (t_feedback db') = map (add_likes fid 1) (rows (t_feedback db)))
  \/ (List.filter (like_of user fid) (rows (t_feedback_likes db)) <> []
      /\ rows (t_feedback_likes db')
         = List.filter (fun r => negb (like_of user fid r)) (rows (t_feedback_likes db))
      /\ rows (t_feedback db') = map (add_likes fid (-1)) (rows (t_feedback db))).
Proof.
  unfold feedback_like, sql_select. fold (like_of user fid).
  destruct (List.filter (like_of user fid) (rows (t_feedback_likes db))) eqn:Esel.
  - destruct (_ && _); [|done]. intros [= <-]. left. by repeat split.
  - intros [= <-]. right. by repeat split.
Qed.

End WallFacts.

(** X24.  A feedback post completes for a user of the users table.  The
    text is stored trimmed, under a new id and with 0 likes, when it is not
    empty after trimming and at most 800 characters long; otherwise the
    wall is left as it was.  Likes are never touched. *)
Theorem feedback_post_stored A (enforce_foreign_keys : bool) (db : database A)
    (user_id : Z) (text : option string) :
  let trimmed := Text.strip (default EmptyString text) in
  (user_id ∈ t_users db ->
   exists db', feedback_post enforce_foreign_keys db user_id text = Some db')
  /\ forall db',
       feedback_post enforce_foreign_keys db user_id text = Some db' ->
       t_feedback_likes db' = t_feedback_likes db
       /\ (trimmed = EmptyString \/ 800 < String.length trimmed -> db' = db)
       /\ (trimmed <> EmptyString -> String.length trimmed <= 800 ->
           exists id,
             rows (t_feedback db') = rows (t_feedback db) ++ [Feedback id user_id trimmed 0]
             /\ (id ∉ map fb_id (rows (t_feedback db)))
             /\ Text.strip trimmed = trimmed).
Proof.
  intros trimmed. unfold feedback_post. fold trimmed. split.
  - intros Hu. rewrite reference_ok_elem by done.
    destruct (_ && _); by eexists.
  - intros db'.
    destruct (Text.nonempty trimmed) eqn:En; cbn [andb];
      [destruct (String.length trimmed <=? 800)%nat eqn:El|].
    + destruct (reference_ok _ _ _); [|done]. intros [= <-].
      apply Nat.leb_le in El. apply nonempty_true in En.
      split; [done|]. split; [intros [?|?]; [done|lia]|].
      intros _ _. eexists. split; [reflexivity|].
      split; [apply sql_insert_fresh|apply strip_idem].
    + intros [= <-]. apply Nat.leb_gt in El.
      split; [done|]. split; [done|]. intros _ ?. lia.
    + intros [= <-]. split; [done|]. split; [done|].
      intros Hne. by apply nonempty_true in Hne; rewrite Hne in En.
Qed.

Lemma feedback_post_stored_witness :
  let db := Database (A:=Q) [7%Z] [] (Table [] 0) (Table [] 0) (Table [] 0)
              (Table [Feedback 1 7 "More soup" 0] 1) (Table [] 0) in
  exists db', feedback_post true db 7 (Some "  Great waffles!  ") = Some db'
              /\ rows (t_feedback db')
                 = [Feedback 1 7 "More soup" 0; Feedback 2 7 "Great waffles!" 0].
Proof.
  intros db.
  destruct (proj1 (feedback_post_stored Q true db 7 (Some "  Great waffles!  ")))
    as [db' Hpost]; [by left|].
  exists db'. split; [done|].
  vm_compute in Hpost. by injection Hpost as <-.
Defined.

(** X25.  Toggling a like keeps the wall consistent: if every like counter
    equals the number of like rows of its entry and nobody likes an entry
    twice, the same holds after any completed toggle. *)
Theorem feedback_like_consistent A (enforce_foreign_keys : bool)
    (db db' : database A) (user_id : Z) (feedback_id : option Z) :
  likes_consistent db ->
  feedback_like enforce_foreign_keys db user_id feedback_id = Some db' ->
  likes_consistent db'.
Proof.
  intros [Hnd Hcount] Hreq. destruct feedback_id as [fid|];
    [|by injection Hreq as <-].
  unfold likes_consistent, like_pairs, like_count in *.
  apply feedback_like_cases in Hreq as [(Enone & -> & ->)|(Esome & -> & ->)].
  - split.
    + rewrite map_app. simpl. apply NoDup_app. split; [done|].
      split; [|apply NoDup_singleton].
      intros p (r & -> & Hr)%list_elem_of_fmap Hp%list_elem_of_singleton.
      pose proof (proj1 (filter_nil_iff _ _) Enone r Hr) as Hf.
      apply like_of_spec in Hp. congruence.
    + apply Forall_fmap. eapply Forall_impl; [exact Hcount|].
      intros f Hf. simpl in Hf. simpl.
      rewrite add_likes_id, List.filter_app, length_app. simpl.
      unfold add_likes. rewrite (Z.eqb_sym fid).
      destruct (fb_id f =? fid)%Z; simpl; lia.
  - split; [by apply pairs_filter_NoDup|].
    apply Forall_fmap. eapply Forall_impl; [exact Hcount|].
    intros f Hf. simpl in Hf. simpl. rewrite add_likes_id. unfold add_likes.
    destruct (fb_id f =? fid)%Z eqn:E; simpl.
    + apply Z.eqb_eq in E. rewrite Hf, E.
      rewrite (count_split (fun r => (fl_feedback_id r =? fid)%Z) (like_of user_id fid)
                 (rows (t_feedback_likes db)))
        by (by intros r [_ ?]%andb_true_iff).
      pose proof (like_once user_id fid _ Hnd) as Hle.
      destruct (List.filter (like_of user_id fid) (rows (t_feedback_likes db)));
        [done|]. simpl in *. lia.
    + rewrite Hf. do 2 f_equal. symmetry. apply filter_filter_untouched.
      intros r Er%Z.eqb_eq. apply negb_true_iff, andb_false_iff. right.
      apply Z.eqb_neq. apply Z.eqb_neq in E. congruence.
Qed.

Lemma feedback_like_consistent_witness :
  let db := Database (A:=Q) [7%Z; 8%Z] [] (Table [] 0) (Table [] 0) (Table [] 0)
              (Table [Feedback 1 7 "More soup" 1] 1) (Table [FeedbackLike 1 8 1] 1) in
  exists db', feedback_like true db 7 (Some 1%Z) = Some db' /\ likes_consistent db'.
Proof.
  intros db.
  assert (Hdb : likes_consistent db).
  { split; [apply NoDup_singleton|]. by repeat constructor. }
  eexists. split; [reflexivity|].
  exact (feedback_like_consistent Q true db _ 7 (Some 1%Z) Hdb eq_refl).
Defined.

(** X26.  A like is a toggle.  For an existing user and entry two requests
    in a row both complete and leave the wall as it was: every entry with
    its counter, who likes what, and each user's set of liked entries; in
    between, the user likes the entry exactly if they did not before. *)
Theorem feedback_like_twice A (enforce_foreign_keys : bool) (db : database A)
    (user_id feedback_id : Z) :
  user_id ∈ t_users db ->
  feedback_id ∈ map fb_id (rows (t_feedback db)) ->
  exists db1 db2,
    feedback_like enforce_foreign_keys db user_id (Some feedback_id) = Some db1
    /\ feedback_like enforce_foreign_keys db1 user_id (Some feedback_id) = Some db2
    /\ ((user_id, feedback_id) ∈ like_pairs db1
        <-> (user_id, feedback_id) ∉ like_pairs db)
    /\ rows (t_feedback db2) = rows (t_feedback db)
    /\ (forall pair, pair ∈ like_pairs db2 <-> pair ∈ like_pairs db)
    /\ (forall user, liked_map db2 user = liked_map db user).
Proof.
  intros Hu Hf.
  assert (Hcomplete : forall d : database A,
            t_users d = t_users db ->
            map fb_id (rows (t_feedback d)) = map fb_id (rows (t_feedback db)) ->
            exists d', feedback_like enforce_foreign_keys d user_id (Some feedback_id)
                       = Some d').
  { intros d Eu Ef. unfold feedback_like. destruct (sql_select _ _); [|by eexists].
    rewrite Eu, Ef, !reference_ok_elem by done. by eexists. }
  assert (Hkeep : forall d d' : database A,
            feedback_like enforce_foreign_keys d user_id (Some feedback_id) = Some d' ->
            t_users d' = t_users d
            /\ map fb_id (rows (t_feedback d')) = map fb_id (rows (t_feedback d))).
  { intros d d' Hreq. split.
    - revert Hreq. unfold feedback_like. destruct (sql_select _ _).
      + destruct (_ && _); [|done]. by intros [= <-].
      + by intros [= <-].
    - apply feedback_like_cases in Hreq as [(_ & _ & ->)|(_ & _ & ->)];
        rewrite map_map; apply map_ext; intros f; apply add_likes_id. }
  destruct (Hcomplete db eq_refl eq_refl) as [db1 H1].
  destruct (Hkeep db db1 H1) as [Eu1 Ef1].
  destruct (Hcomplete db1 Eu1 Ef1) as [db2 H2].
  exists db1, db2. split; [done|]. split; [done|].
  assert (Hmine : forall l : list feedback_likes_row,
            (user_id, feedback_id) ∈ map (fun r => (fl_user_id r, fl_feedback_id r)) l
            <-> List.filter (like_of user_id feedback_id) l <> []).
  { intros l. rewrite list_elem_of_fmap. split.
    - intros (r & E & Hr) Hnil.
      pose proof (proj1 (filter_nil_iff _ _) Hnil r Hr) as Hfalse.
      symmetry in E. apply like_of_spec in E. congruence.
    - intros Hne. destruct (List.filter _ l) as [|r rest] eqn:Ef; [done|].
      assert (Hr : r ∈ List.filter (like_of user_id feedback_id) l)
        by (rewrite Ef; by left).
      apply list_elem_of_In, filter_In in Hr as [Hr Er%like_of_spec].
      exists r. split; [done|by apply list_elem_of_In]. }
  assert (Hpairs : ((user_id, feedback_id) ∈ like_pairs db1
                    <-> (user_id, feedback_id) ∉ like_pairs db)
                   /\ rows (t_feedback db2) = rows (t_feedback db)
                   /\ forall pair, pair ∈ like_pairs db2 <-> pair ∈ like_pairs db).
  { unfold like_pairs.
    apply feedback_like_cases in H1 as [(E1 & L1 & F1)|(E1 & L1 & F1)];
      apply feedback_like_cases in H2 as [(E2 & L2 & F2)|(E2 & L2 & F2)];
      rewrite L1 in E2.
    - exfalso. rewrite List.filter_app in E2. cbn [List.filter] in E2.
      rewrite like_of_new in E2. by destruct (List.filter _ _).
    - assert (Hall : List.filter (fun r => negb (like_of user_id feedback_id r))
                       (rows (t_feedback_likes db)) = rows (t_feedback_likes db)).
      { pose proof (proj1 (filter_nil_iff _ _) E1) as Hno. clear -Hno.
        induction (rows (t_feedback_likes db)) as [|r l IH]; [done|]. simpl.
        rewrite (Hno r (list_elem_of_here _ _)). simpl. f_equal. apply IH.
        intros x Hx. apply Hno. by right. }
      split; [|split].
      + split.
        * intros _. rewrite Hmine, E1. by intros ?.
        * intros _. rewrite L1, map_app, elem_of_app. right. by left.
      + rewrite F2, F1. apply (add_likes_back feedback_id 1).
      + intros pair. rewrite L2, L1, List.filter_app. cbn [List.filter].
        rewrite like_of_new. cbn [negb]. by rewrite app_nil_r, Hall.
    - split; [|split].
      + rewrite L1, !Hmine.
        rewrite filter_filter_none by (intros r ->; done). tauto.
      + rewrite F2, F1.
        change 1%Z with (- (-1))%Z. apply (add_likes_back feedback_id (-1)).
      + intros pair. rewrite L2, L1, map_app, elem_of_app. cbn [map].
        rewrite list_elem_of_singleton, !list_elem_of_fmap. split.
        * intros [(r & Ep & Hr%list_elem_of_In%filter_In)|Ep]; subst pair.
          -- exists r. split; [done|]. apply list_elem_of_In. tauto.
          -- by apply list_elem_of_fmap, Hmine.
        * intros (r & -> & Hr).
          destruct (like_of user_id feedback_id r) eqn:Er.
          -- right. by apply like_of_spec in Er.
          -- left. exists r. split; [done|]. apply list_elem_of_In, filter_In.
             split; [by apply list_elem_of_In|by rewrite Er].
    - exfalso. apply E2. by rewrite filter_filter_none by (intros r ->; done). }
  destruct Hpairs as (Hmid & Hfb & Hp). split; [done|]. split; [done|].
  split; [done|]. intros user. apply set_eq. intros f.
  by rewrite !elem_of_liked_map.
Qed.

Lemma feedback_like_twice_witness :
  let db := Database (A:=Q) [7%Z; 8%Z] [] (Table [] 0) (Table [] 0) (Table [] 0)
              (Table [Feedback 1 7 "More soup" 1] 1) (Table [FeedbackLike 1 8 1] 1) in
  exists db1 db2,
    feedback_like true db 7 (Some 1%Z) = Some db1
    /\ feedback_like true db1 7 (Some 1%Z) = Some db2
    /\ ((7%Z, 1%Z) ∈ like_pairs db1 <-> (7%Z, 1%Z) ∉ like_pairs db)
    /\ rows (t_feedback db2) = rows (t_feedback db)
    /\ (forall pair, pair ∈ like_pairs db2 <-> pair ∈ like_pairs db)
    /\ (forall user, liked_map db2 user = liked_map db user).
Proof.
  intros db. apply (feedback_like_twice Q true db 7 1); by left.
Defined.

(** ** Accounts *)

Lemma or_none_some x s : or_none x = Some s -> x = Some s /\ s <> EmptyString.
Proof.
  destruct x as [t|]; simpl; [|done].
  destruct (Text.nonempty t) eqn:E; [|done]. intros [= ->].
  split; [done|]. by apply nonempty_true.
Qed.

Lemma or_none_nonempty s : s <> EmptyString -> or_none (Some s) = Some s.
Proof. intros Hs%nonempty_true. simpl. by rewrite Hs. Qed.

(** X27.  Registration keeps the users table consistent (distinct names,
    distinct ids, no empty name) whatever the hash function; whenever it
    answers with the form again (a field missing, passwords that differ, a
    name already taken) the table and the session are as before, and a
    successful registration puts the new user's id, one not used before,
    into the session. *)
Theorem register_consistent (generate_password_hash : string -> string -> string)
    (users users' : table user_row) (session session' : option Z)
    (username password confirmation : option string) (salt : string)
    (answer : response) :
  users_consistent users ->
  register generate_password_hash users session username password confirmation salt
  = (answer, users', session') ->
  users_consistent users'
  /\ (forall template message, answer = render_template template message ->
        users' = users /\ session' = session)
  /\ (forall location, answer = redirect location ->
        exists name pw id,
          username = Some name /\ password = Some pw /\ confirmation = Some pw
          /\ session' = Some id /\ (id ∉ map u_id (rows users))
          /\ rows users' = rows users ++ [User id name (generate_password_hash salt pw)]).
Proof.
  intros (Hnames & Hids & Hnonempty). unfold register.
  destruct (or_none username) as [name|] eqn:Eu;
    [|intros [= <- <- <-]; repeat split; done].
  destruct (or_none password) as [pw|] eqn:Ep;
    [|intros [= <- <- <-]; repeat split; done].
  destruct (or_none confirmation) as [cf|] eqn:Ec;
    [|intros [= <- <- <-]; repeat split; done].
  apply or_none_some in Eu as [-> Hname], Ep as [-> _], Ec as [-> _].
  destruct (String.eqb pw cf) eqn:Epc; cbn [negb];
    [|intros [= <- <- <-]; repeat split; done].
  apply String.eqb_eq in Epc as <-.
  destruct (sql_select _ _) eqn:Esel; [|intros [= <- <- <-]; repeat split; done].
  intros [= <- <- <-]. unfold users_consistent. cbn [sql_insert rows seq].
  split; [split; [|split]|split].
  - rewrite map_app. simpl. apply NoDup_app. split; [done|].
    split; [|apply NoDup_singleton].
    intros n (r & -> & Hr)%list_elem_of_fmap Hn%list_elem_of_singleton.
    pose proof (proj1 (filter_nil_iff _ _) Esel r Hr) as Hf. simpl in Hf.
    apply String.eqb_neq in Hf. done.
  - rewrite map_app. simpl. apply NoDup_app. split; [done|].
    split; [|apply NoDup_singleton].
    intros k Hk Hnew%list_elem_of_singleton. subst k.
    by apply sql_insert_fresh in Hk.
  - apply Forall_app. split; [done|]. by constructor.
  - done.
  - intros location _. exists name, pw. eexists. repeat split; try done.
    apply sql_insert_fresh.
Qed.

Lemma register_consistent_witness :
  let users := Table [User 1 "ada" "h1"] 1 in
  users_consistent
    (Table [User 1 "ada" "h1"; User 2 "bob" "salt:pw"] 2).
Proof.
  intros users.
  assert (Hc : users_consistent users).
  { split; [apply NoDup_singleton|]. split; [apply NoDup_singleton|].
    by repeat constructor. }
  exact (proj1 (register_consistent
                  (fun salt pw => String.append salt (String.append ":" pw))
                  users _ None _ (Some "bob") (Some "pw") (Some "pw") "salt" _
                  Hc eq_refl)).
Defined.

(** X28.  Who registers can log in.  With a consistent users table and a
    hash check that accepts the password a hash was made from, a
    registration with a free name and matching passwords is followed by a
    successful login under that name and password, as the user just
    created; and no login succeeds without a row of that name whose hash
    the check accepts. *)
Theorem register_then_login
    (generate_password_hash : string -> string -> string)
    (check_password_hash : string -> string -> bool)
    (users : table user_row) (session : option Z)
    (name pw salt : string) :
  (forall salt password,
      check_password_hash (generate_password_hash salt password) password = true) ->
  users_consistent users ->
  name <> EmptyString -> pw <> EmptyString ->
  name ∉ map u_username (rows users) ->
  exists users' id,
    register generate_password_hash users session (Some name) (Some pw) (Some pw) salt
    = (redirect "/preferences", users', Some id)
    /\ login check_password_hash users' (Some name) (Some pw)
       = (redirect "/dashboard", Some id)
    /\ forall name' pw' location id',
         login check_password_hash users' name' pw' = (redirect location, Some id') ->
         exists row, row ∈ rows users' /\ u_id row = id'
                     /\ name' = Some (u_username row)
                     /\ exists text, pw' = Some text
                                     /\ check_password_hash (u_hash row) text = true.
Proof.
  intros Hcheck (Hnames & Hids & Hne) Hname Hpw Hfree.
  assert (Hnone : sql_select (fun r => String.eqb (u_username r) name) users = []).
  { apply filter_nil_iff. intros r Hr. apply String.eqb_neq. intros E.
    apply Hfree, list_elem_of_fmap. by exists r. }
  unfold register. rewrite !or_none_nonempty by done.
  rewrite String.eqb_refl. cbn [negb]. rewrite Hnone.
  eexists. eexists. split; [reflexivity|]. split.
  - unfold login. rewrite !or_none_nonempty by done.
    unfold sql_select in *. cbn [sql_insert rows seq].
    rewrite List.filter_app, Hnone. cbn [List.filter u_username app].
    rewrite String.eqb_refl. cbn [u_hash u_id]. by rewrite Hcheck.
  - intros name' pw' location id'. unfold login.
    destruct (or_none name') as [n|] eqn:En; [|intros ?; congruence].
    destruct (or_none pw') as [t|] eqn:Et; [|intros ?; congruence].
    apply or_none_some in En as [-> _], Et as [-> _].
    destruct (sql_select (fun r => String.eqb (u_username r) n) (sql_insert _ _ _))
      as [|row [|row2 rest]] eqn:Esel;
      [intros ?; congruence| |intros ?; congruence].
    destruct (check_password_hash (u_hash row) t) eqn:Ec; [|intros ?; congruence].
    intros [= _ <-].
    assert (Hin : row ∈ sql_select (fun r => String.eqb (u_username r) n)
              (sql_insert u_id
                 (fun id => User id name (generate_password_hash salt pw)) users))
      by (rewrite Esel; by left).
    apply list_elem_of_In, filter_In in Hin as [Hin En%String.eqb_eq].
    exists row. split; [by apply list_elem_of_In|]. split; [done|].
    split; [by rewrite En|]. by exists t.
Qed.

Lemma register_then_login_witness :
  let generate salt pw := String.append salt (String.append ":" pw) in
  let check pwhash pw := String.eqb pwhash (generate "salt" pw) in
  let users := Table [User 1 "ada" "salt:lovelace"] 1 in
  exists users' id,
    register generate users None (Some "bob") (Some "pw") (Some "pw") "salt"
    = (redirect "/preferences", users', Some id)
    /\ login check users' (Some "bob") (Some "pw") = (redirect "/dashboard", Some id).
Proof.
  intros generate check users.
  set (generate' := fun (_ : string) pw => generate "salt" pw).
  destruct (register_then_login generate' check users None "bob" "pw" "salt")
    as (users' & id & Hreg & Hlogin & _).
  - intros s p. unfold check, generate'. apply String.eqb_refl.
  - split; [apply NoDup_singleton|]. split; [apply NoDup_singleton|].
    by repeat constructor.
  - discriminate.
  - discriminate.
  - intros Hin%list_elem_of_singleton. discriminate Hin.
  - exists users', id. split; [exact Hreg|exact Hlogin].
Defined.
